(** * The UDP listener of the RTSP server (server_udp_listener.go)

    A shallow embedding of the listener/demultiplexer: the client address key
    ([clientAddr] and its [fill]), the client registry ([addClient],
    [removeClient]), the receive loop ([run]) with the shutdown rendezvous
    ([close]), the multicast join ([joinMulticastGroupOnAtLeastOneInterface])
    and the construction of listeners ([newServerUDPListener],
    [newServerUDPListenerMulticastPair]).

    Go values are modelled as follows: a byte slice ([[]byte], [net.IP]) is a
    [list byte]; the array [[16]byte] is a [list byte] of length 16 (the
    length is the invariant [wf_clientAddr]); [int] is [Z]; a map is a
    [gmap]; an [error] is an [option error] with [None] for [nil]; a function
    returning [(T, error)] returns a [result T].

    Code that calls the operating system is written in a state monad over
    the system's state [OS]; what the system answers is a parameter ([Env]).
    The goroutine of [run] and the caller of [close] are the two threads of
    a transition system ([step]).  A handler is a function on the state of
    the collaborators that returns: a handler that panics or blocks is
    outside the model.  [write], [ip], [port] and
    [serverFindFormatWithSSRC] are not modelled. *)

From Stdlib Require Import ZArith.
From Stdlib.Strings Require Import Byte.
From stdpp Require Import base option list gmap strings countable pretty.

Open Scope Z_scope.

(** ** Go primitives *)

Abbreviation byte := Byte.byte.

#[global] Instance byte_eq_dec : EqDecision byte := Byte.byte_eq_dec.

#[global] Instance byte_countable : Countable byte :=
  inj_countable Byte.to_N Byte.of_N Byte.of_to_N.

(** The builtin [copy(dst, src)]: the first [min (len dst) (len src)] elements
    of [dst] are overwritten by those of [src]; the result is the new content
    of [dst]. *)
Definition go_copy {A} (dst src : list A) : list A :=
  take (length dst) src ++ drop (length src) dst.

(** [copy(dst[off:], src)], seen from the whole of [dst]. *)
Definition go_copy_at {A} (off : nat) (dst src : list A) : list A :=
  take off dst ++ go_copy (drop off dst) src.

(** [net.IP] is a byte slice; [net.IPv4len] and [net.IPv6len] are the two
    lengths the package [net] produces. *)
Definition IP := list byte.

Definition IPv4len : nat := 4.
Definition IPv6len : nat := 16.

(** ** The client address key (lines 50-64) *)

(** [type clientAddr struct { ip [net.IPv6len]byte; port int }] *)
Record clientAddr := ClientAddr {
  ca_ip : list byte;
  ca_port : Z;
}.

(** The array type of the field [ip]: exactly [IPv6len] bytes. *)
Definition wf_clientAddr (p : clientAddr) : Prop :=
  length (ca_ip p) = IPv6len.

#[global] Instance clientAddr_eq_dec : EqDecision clientAddr.
Proof. solve_decision. Defined.

#[global] Instance clientAddr_countable : Countable clientAddr :=
  inj_countable' (λ p, (ca_ip p, ca_port p)) (λ q, ClientAddr q.1 q.2)
    (λ p, match p with ClientAddr _ _ => eq_refl end).

(** The zero value of [clientAddr], what [var addr clientAddr] declares. *)
Definition clientAddr_zero : clientAddr :=
  ClientAddr (replicate IPv6len x00) 0.

(** The literal of line 59,
    [[]byte{0, 0, 0, 0, 0, 0, 0, 0, 0, 0, 0xff, 0xff}]. *)
Definition v4InV6Prefix : list byte :=
  [x00; x00; x00; x00; x00; x00; x00; x00; x00; x00; xff; xff].

(** [func (p *clientAddr) fill(ip net.IP, port int)]: the receiver is updated
    in place, so the model takes the old value and returns the new one. *)
Definition fill (p : clientAddr) (ip : IP) (port : Z) : clientAddr :=
  let p := ClientAddr (ca_ip p) port in
  if decide (length ip = IPv4len) then
    let p := ClientAddr (go_copy_at 0 (ca_ip p) v4InV6Prefix) (ca_port p) in
    ClientAddr (go_copy_at 12 (ca_ip p) ip) (ca_port p)
  else
    ClientAddr (go_copy_at 0 (ca_ip p) ip) (ca_port p).

(** [var addr clientAddr; addr.fill(ip, port)]: the key of a sender, as
    [run], [addClient] and [removeClient] build it. *)
Definition clientAddr_of (ip : IP) (port : Z) : clientAddr :=
  fill clientAddr_zero ip port.

(** ** Errors, addresses and what the file takes from elsewhere *)

(** A Go [error] value is its message; [nil] is [None] of [option error]. *)
Definition error := string.

(** A Go result pair [(T, error)]. *)
Inductive result (A : Type) : Type :=
| Ok (a : A)
| Err (e : error).
Arguments Ok {A} a.
Arguments Err {A} e.

(** How a constructor ends: with a value, with an error, or in a panic (a
    failed type assertion). *)
Inductive outcome (A : Type) : Type :=
| Ret (a : A)
| Fail (e : error)
| Panic.
Arguments Ret {A} a.
Arguments Fail {A} e.
Arguments Panic {A}.

(** [net.UDPAddr] *)
Record UDPAddr := {
  addr_IP : IP;
  addr_Port : Z;
  addr_Zone : string;
}.

(** [net.Interface], with the fields the listener reads, and the flag
    [net.FlagMulticast = 1 << 4]. *)
Record Interface := {
  intf_Index : Z;
  intf_Name : string;
  intf_Flags : Z;
}.

Definition FlagMulticast : Z := Z.shiftl 1 4.

(** Constants and helpers of the package that are declared in other files
    ([udpMaxPayloadSize], [udpKernelReadBufferSize], [multicastTTL],
    [restrictNetwork]) and the pure functions of Go's library the file calls
    ([net.SplitHostPort], [net.ParseIP], [net.JoinHostPort], [IP.String],
    [strconv.FormatInt]).  They are parameters of the development. *)
Class Platform := {
  udpMaxPayloadSize : nat;
  udpKernelReadBufferSize : Z;
  multicastTTL : Z;
  restrictNetwork : string → string → string * string;
  SplitHostPort : string → result (string * string);
  ParseIP : string → IP;
  JoinHostPort : string → string → string;
  IP_String : IP → string;
  FormatInt : Z → Z → string;
}.

(** A socket as [listenPacket] returns it: a [net.PacketConn] with a handle,
    which may or may not be a [*net.UDPConn] (the type assertions of lines 140
    and 147 panic when it is not). *)
Record PacketConn := {
  conn_fd : nat;
  conn_udp : bool;
}.

#[global] Instance PacketConn_eq_dec : EqDecision PacketConn.
Proof. solve_decision. Defined.

Section Listener.

(** [App] is the state of the collaborators that register handlers; a handler
    ([readFunc], [func([]byte)]) acts on it. *)
Context {App : Type} {plat : Platform}.

Definition readFunc : Type := list byte → App → App.

(** ** The listener (lines 66-74)

    [clientsMutex] is not a field of the model: it makes [addClient],
    [removeClient] and the body of one iteration of [run] mutually atomic,
    which is how the steps below are cut.  The channel [done] is the counter
    [done_fired] of the running system. *)
Record serverUDPListener := {
  pc : PacketConn;
  listenIP : IP;
  writeTimeout : Z;
  clients : gmap clientAddr readFunc;
}.

Definition set_clients (u : serverUDPListener)
    (m : gmap clientAddr readFunc) : serverUDPListener :=
  {| pc := pc u; listenIP := listenIP u; writeTimeout := writeTimeout u;
     clients := m |}.

(** [func (u *serverUDPListener) addClient(ip net.IP, port int, cb readFunc)] *)
Definition addClient (u : serverUDPListener) (ip : IP) (port : Z)
    (cb : readFunc) : serverUDPListener :=
  let addr := fill clientAddr_zero ip port in
  set_clients u (<[addr := cb]> (clients u)).

(** [func (u *serverUDPListener) removeClient(ip net.IP, port int)] *)
Definition removeClient (u : serverUDPListener) (ip : IP) (port : Z)
    : serverUDPListener :=
  let addr := fill clientAddr_zero ip port in
  set_clients u (delete addr (clients u)).

(** ** The receive loop and the shutdown (lines 169-172 and 182-206) *)

(** Where the goroutine of [run] stands: blocked in [ReadFromUDP] at the top
    of the loop, out of the loop with the deferred [close(u.done)] still to
    run, or returned. *)
Inductive loop_pc := AtRead | Broke | Exited.

(** Where the caller of [close] stands: not called yet, past [u.pc.Close()]
    and blocked in [<-u.done], or returned. *)
Inductive closer_pc := NotCalled | Waiting | Returned.

#[global] Instance loop_pc_eq_dec : EqDecision loop_pc.
Proof. solve_decision. Defined.

#[global] Instance closer_pc_eq_dec : EqDecision closer_pc.
Proof. solve_decision. Defined.

(** The running system: the listener, its socket and channel, the two
    threads, the state of the collaborators, and two records of what the loop
    did: the handler invocations [calls] (handler and argument, oldest first)
    and the number of registry lookups [lookups]. *)
Record sys := {
  lst : serverUDPListener;
  sock_closed : bool;
  done_fired : nat;
  loop : loop_pc;
  closer : closer_pc;
  app : App;
  calls : list (readFunc * list byte);
  lookups : nat;
}.

(** A datagram waiting on the socket: its payload and its sender. *)
Record datagram := {
  dg_data : list byte;
  dg_from : UDPAddr;
}.

(** What one call of [u.pc.ReadFromUDP(buf)] returns. *)
Inductive read_outcome :=
| ReadDatagram (d : datagram)
| ReadError (e : error).

(** [ReadFromUDP] on success: the payload is copied into [buf], and the
    number of bytes copied and the sender are returned. *)
Definition ReadFromUDP (buf : list byte) (d : datagram)
    : nat * UDPAddr * list byte :=
  (Nat.min (length (dg_data d)) (length buf), dg_from d,
   go_copy buf (dg_data d)).

(** The closure of lines 192-204, under the read lock. *)
Definition dispatch (buf : list byte) (n : nat) (addr : UDPAddr) (s : sys)
    : sys :=
  let clientAddr := fill clientAddr_zero (addr_IP addr) (addr_Port addr) in
  let s := {| lst := lst s; sock_closed := sock_closed s;
              done_fired := done_fired s; loop := loop s; closer := closer s;
              app := app s; calls := calls s; lookups := S (lookups s) |} in
  match clients (lst s) !! clientAddr with
  | None => s
  | Some cb =>
      {| lst := lst s; sock_closed := sock_closed s;
         done_fired := done_fired s; loop := loop s; closer := closer s;
         app := cb (take n buf) (app s);
         calls := calls s ++ [(cb, take n buf)];
         lookups := lookups s |}
  end.

Definition set_loop (l : loop_pc) (s : sys) : sys :=
  {| lst := lst s; sock_closed := sock_closed s; done_fired := done_fired s;
     loop := l; closer := closer s; app := app s; calls := calls s;
     lookups := lookups s |}.

(** One iteration of the [for] of [run], given what the read returns. *)
Definition run_iter (o : read_outcome) (s : sys) : sys :=
  let buf := replicate (udpMaxPayloadSize + 1)%nat x00 in
  match o with
  | ReadError _ => set_loop Broke s
  | ReadDatagram d =>
      let '(n, addr, buf) := ReadFromUDP buf d in
      dispatch buf n addr s
  end.

(** The deferred [close(u.done)] of line 183. *)
Definition run_deferred (s : sys) : sys :=
  {| lst := lst s; sock_closed := sock_closed s;
     done_fired := S (done_fired s); loop := Exited; closer := closer s;
     app := app s; calls := calls s; lookups := lookups s |}.

(** [run] on its own, against the reads the socket will answer: the loop
    goes on until a read fails, then the deferred call runs; when the reads
    are used up the goroutine is blocked in [ReadFromUDP]. *)
Fixpoint run (reads : list read_outcome) (s : sys) : sys :=
  match reads with
  | [] => s
  | ReadError e :: _ => run_deferred (run_iter (ReadError e) s)
  | ReadDatagram d :: reads => run reads (run_iter (ReadDatagram d) s)
  end.

(** [u.pc.Close()], the first statement of [close]. *)
Definition close_socket (s : sys) : sys :=
  {| lst := lst s; sock_closed := true; done_fired := done_fired s;
     loop := loop s; closer := Waiting; app := app s; calls := calls s;
     lookups := lookups s |}.

(** [<-u.done], the second statement of [close], once the channel is
    closed. *)
Definition close_return (s : sys) : sys :=
  {| lst := lst s; sock_closed := sock_closed s; done_fired := done_fired s;
     loop := loop s; closer := Returned; app := app s; calls := calls s;
     lookups := lookups s |}.

Definition set_lst (u : serverUDPListener) (s : sys) : sys :=
  {| lst := u; sock_closed := sock_closed s; done_fired := done_fired s;
     loop := loop s; closer := closer s; app := app s; calls := calls s;
     lookups := lookups s |}.

(** What can happen next in the running system. *)
Inductive event :=
| EvRead (o : read_outcome)
| EvDeferred
| EvAddClient (ip : IP) (port : Z) (cb : readFunc)
| EvRemoveClient (ip : IP) (port : Z)
| EvCloseSocket
| EvCloseReturn.

(** One step.  A read returns only to a goroutine blocked in it, and a
    datagram only from a socket that is not closed; the deferred call runs
    after the loop is left; [close] is called once; its receive on [done]
    returns only when the channel is closed.  [None]: the event cannot happen
    in this state. *)
Definition step (e : event) (s : sys) : option sys :=
  match e with
  | EvRead (ReadDatagram d) =>
      if decide (loop s = AtRead) then
        if sock_closed s then None else Some (run_iter (ReadDatagram d) s)
      else None
  | EvRead (ReadError err) =>
      if decide (loop s = AtRead) then Some (run_iter (ReadError err) s)
      else None
  | EvDeferred =>
      if decide (loop s = Broke) then Some (run_deferred s) else None
  | EvAddClient ip port cb => Some (set_lst (addClient (lst s) ip port cb) s)
  | EvRemoveClient ip port => Some (set_lst (removeClient (lst s) ip port) s)
  | EvCloseSocket =>
      if decide (closer s = NotCalled) then Some (close_socket s) else None
  | EvCloseReturn =>
      if decide (closer s = Waiting) then
        if decide (0 < done_fired s)%nat then Some (close_return s) else None
      else None
  end.

Fixpoint steps (es : list event) (s : sys) : option sys :=
  match es with
  | [] => Some s
  | e :: es => match step e s with Some s' => steps es s' | None => None end
  end.

(** The system of the listener [u] as [newServerUDPListener] leaves it
    (lines 156-164): the socket open, the goroutine started, the channel
    open, [close] not called. *)
Definition sys_init (u : serverUDPListener) (a : App) : sys :=
  {| lst := u; sock_closed := false; done_fired := 0; loop := AtRead;
     closer := NotCalled; app := a; calls := []; lookups := 0 |}.

Definition reachable (u : serverUDPListener) (a : App) (s : sys) : Prop :=
  ∃ es, steps es (sys_init u a) = Some s.

(** ** The operating system, as construction sees it *)

(** A call that reached the system, with what it answered. *)
Inductive call :=
| CallListen (network address : string) (p : PacketConn)
| CallInterfaces
| CallSetMulticastTTL (p : PacketConn) (ttl : Z) (r : option error)
| CallJoinGroup (p : PacketConn) (intf : Interface) (group : IP)
    (r : option error)
| CallSetReadBuffer (p : PacketConn) (size : Z) (r : option error)
| CallClose (p : PacketConn)
| CallGoRun (p : PacketConn).

(** The state of the system: the handles that are open, the sockets whose
    receive loop is running, and the calls made so far, oldest first. *)
Record OS := {
  os_open : gset nat;
  os_loops : gset nat;
  os_log : list call;
}.

(** How the system answers: each answer may depend on the state and so on
    everything that happened before. *)
Class Env := {
  env_Interfaces : OS → result (list Interface);
  env_JoinGroup : OS → PacketConn → Interface → IP → option error;
  env_SetMulticastTTL : OS → PacketConn → Z → option error;
  env_SetReadBuffer : OS → PacketConn → Z → option error;
  env_LocalAddr : OS → PacketConn → UDPAddr;
}.

Context {env : Env}.

(** Code that acts on the system. *)
Definition M (A : Type) : Type := OS → A * OS.

Definition ret {A} (a : A) : M A := λ w, (a, w).

Definition bind {A B} (m : M A) (k : A → M B) : M B :=
  λ w, let '(a, w') := m w in k a w'.

Notation "x <- m ;; k" := (bind m (λ x, k))
  (at level 100, m at next level, right associativity).

Definition log_call (c : call) (w : OS) : OS :=
  {| os_open := os_open w; os_loops := os_loops w;
     os_log := os_log w ++ [c] |}.

(** [net.Interfaces()] *)
Definition net_Interfaces : M (result (list Interface)) :=
  λ w, (env_Interfaces w, log_call CallInterfaces w).

(** [p.JoinGroup(&intf, &net.UDPAddr{IP: listenIP})] *)
Definition JoinGroup (p : PacketConn) (intf : Interface) (group : IP)
    : M (option error) :=
  λ w, let r := env_JoinGroup w p intf group in
       (r, log_call (CallJoinGroup p intf group r) w).

(** [p.SetMulticastTTL(ttl)] *)
Definition SetMulticastTTL (p : PacketConn) (ttl : Z) : M (option error) :=
  λ w, let r := env_SetMulticastTTL w p ttl in
       (r, log_call (CallSetMulticastTTL p ttl r) w).

(** [pc.SetReadBuffer(size)] *)
Definition SetReadBuffer (p : PacketConn) (size : Z) : M (option error) :=
  λ w, let r := env_SetReadBuffer w p size in
       (r, log_call (CallSetReadBuffer p size r) w).

(** [tmp.LocalAddr()], asserted to be a UDP address *)
Definition LocalAddr (p : PacketConn) : M UDPAddr :=
  λ w, (env_LocalAddr w p, w).

(** [u.pc.Close()]: the handle is released. *)
Definition pc_Close (p : PacketConn) : M unit :=
  λ w, (tt, {| os_open := os_open w ∖ {[conn_fd p]};
               os_loops := os_loops w;
               os_log := os_log w ++ [CallClose p] |}).

(** [go u.run()]: the receive loop of the socket is running from here on. *)
Definition go_run (u : serverUDPListener) : M unit :=
  λ w, (tt, {| os_open := os_open w;
               os_loops := os_loops w ∪ {[conn_fd (pc u)]};
               os_log := os_log w ++ [CallGoRun (pc u)] |}).

(** [<-u.done]: returns when the receive loop of the socket has exited. *)
Definition wait_done (u : serverUDPListener) : M unit :=
  λ w, (tt, {| os_open := os_open w;
               os_loops := os_loops w ∖ {[conn_fd (pc u)]};
               os_log := os_log w |}).

(** ** The multicast join (lines 26-48) *)

Definition errNoMulticastInterface : error :=
  "unable to activate multicast on any network interface".

(** The test of line 35: [(intf.Flags & net.FlagMulticast) != 0]. *)
Definition multicast_capable (intf : Interface) : Prop :=
  Z.land (intf_Flags intf) FlagMulticast ≠ 0.

#[global] Instance multicast_capable_dec (intf : Interface) :
  Decision (multicast_capable intf).
Proof. unfold multicast_capable. apply _. Defined.

(** The [for] of lines 34-41, with the variable [success] threaded. *)
Fixpoint join_interfaces (p : PacketConn) (listenIP : IP)
    (intfs : list Interface) (success : bool) : M bool :=
  match intfs with
  | [] => ret success
  | intf :: intfs =>
      if decide (multicast_capable intf) then
        err <- JoinGroup p intf listenIP ;;
        join_interfaces p listenIP intfs
          (match err with None => true | Some _ => success end)
      else join_interfaces p listenIP intfs success
  end.

Definition joinMulticastGroupOnAtLeastOneInterface (p : PacketConn)
    (listenIP : IP) : M (option error) :=
  r <- net_Interfaces ;;
  match r with
  | Err err => ret (Some err)
  | Ok intfs =>
      success <- join_interfaces p listenIP intfs false ;;
      if negb success then ret (Some errNoMulticastInterface)
      else ret None
  end.

(** ** Construction (lines 76-167) *)

(** The pluggable [listenPacket func(network, address string)
    (net.PacketConn, error)]. *)
Definition listenPacketFunc : Type :=
  string → string → M (result PacketConn).

(** Lines 113-149 of [newServerUDPListener]: the socket and the listen
    address, by the multicast flag. *)
Definition bind_socket (listenPacket : listenPacketFunc) (multicast : bool)
    (address : string) : M (outcome (PacketConn * IP)) :=
  if multicast then
    match SplitHostPort address with
    | Err err => ret (Fail err)
    | Ok (host, port) =>
        let '(network, addr) :=
          restrictNetwork "udp" ("224.0.0.0:" +:+ port) in
        r <- listenPacket network addr ;;
        match r with
        | Err err => ret (Fail err)
        | Ok tmp =>
            err <- SetMulticastTTL tmp multicastTTL ;;
            match err with
            | Some err => ret (Fail err)
            | None =>
                let listenIP := ParseIP host in
                err <- joinMulticastGroupOnAtLeastOneInterface tmp listenIP ;;
                match err with
                | Some err => ret (Fail err)
                | None =>
                    if conn_udp tmp then ret (Ret (tmp, listenIP))
                    else ret Panic
                end
            end
        end
    end
  else
    let '(network, addr) := restrictNetwork "udp" address in
    r <- listenPacket network addr ;;
    match r with
    | Err err => ret (Fail err)
    | Ok tmp =>
        if conn_udp tmp then
          a <- LocalAddr tmp ;;
          ret (Ret (tmp, addr_IP a))
        else ret Panic
    end.

(** [func newServerUDPListener(listenPacket, writeTimeout, multicast,
    address)] *)
Definition newServerUDPListener (listenPacket : listenPacketFunc)
    (writeTimeout : Z) (multicast : bool) (address : string)
    : M (outcome serverUDPListener) :=
  r <- bind_socket listenPacket multicast address ;;
  match r with
  | Fail err => ret (Fail err)
  | Panic => ret Panic
  | Ret (pc, listenIP) =>
      err <- SetReadBuffer pc udpKernelReadBufferSize ;;
      match err with
      | Some err => ret (Fail err)
      | None =>
          let u := {| pc := pc; listenIP := listenIP; clients := ∅;
                      writeTimeout := writeTimeout |} in
          _ <- go_run u ;;
          ret (Ret u)
      end
  end.

(** [func (u *serverUDPListener) close()], as its caller sees it. *)
Definition close (u : serverUDPListener) : M unit :=
  _ <- pc_Close (pc u) ;;
  wait_done u.

(** [func newServerUDPListenerMulticastPair(listenPacket, writeTimeout,
    multicastRTPPort, multicastRTCPPort, ip)] *)
Definition newServerUDPListenerMulticastPair (listenPacket : listenPacketFunc)
    (writeTimeout : Z) (multicastRTPPort multicastRTCPPort : Z) (ip : IP)
    : M (outcome (serverUDPListener * serverUDPListener)) :=
  r <- newServerUDPListener listenPacket writeTimeout true
         (JoinHostPort (IP_String ip) (FormatInt multicastRTPPort 10)) ;;
  match r with
  | Fail err => ret (Fail err)
  | Panic => ret Panic
  | Ret rtpl =>
      r <- newServerUDPListener listenPacket writeTimeout true
             (JoinHostPort (IP_String ip) (FormatInt multicastRTCPPort 10)) ;;
      match r with
      | Fail err =>
          _ <- close rtpl ;;
          ret (Fail err)
      | Panic => ret Panic
      | Ret rtcpl => ret (Ret (rtpl, rtcpl))
      end
  end.

(** ** Predicates the properties are stated with *)

(** The network and address [newServerUDPListener] passes to [listenPacket]
    (lines 121 and 142), when it gets that far. *)
Definition listen_args (multicast : bool) (address : string)
    : option (string * string) :=
  if multicast then
    match SplitHostPort address with
    | Err _ => None
    | Ok (_, port) => Some (restrictNetwork "udp" ("224.0.0.0:" +:+ port))
    end
  else Some (restrictNetwork "udp" address).

(** What holds of every state of the running system. *)
Definition rendezvous_inv (s : sys) : Prop :=
  (loop s = Exited → done_fired s = 1%nat) ∧
  (loop s ≠ Exited → done_fired s = 0%nat) ∧
  (closer s = Returned → done_fired s = 1%nat) ∧
  (closer s ≠ NotCalled → sock_closed s = true).

(** The calls of a list of join attempts, as the log records them. *)
Definition join_calls (p : PacketConn) (group : IP)
    (attempts : list (Interface * option error)) : list call :=
  (λ a, CallJoinGroup p a.1 group a.2) <$> attempts.

Definition joined (a : Interface * option error) : Prop := a.2 = None.

(** [quiet w w']: from [w] to [w'] no handle was opened or released, no
    receive loop was started or ended, and the calls made in between closed
    no socket and started no goroutine. *)
Definition quiet (w w' : OS) : Prop :=
  os_open w' = os_open w ∧ os_loops w' = os_loops w ∧
  ∃ l, os_log w' = os_log w ++ l ∧
       ∀ p, (CallClose p ∉ l) ∧ (CallGoRun p ∉ l).

End Listener.

Arguments readFunc : clear implicits.
Arguments serverUDPListener : clear implicits.
Arguments sys : clear implicits.
Arguments event : clear implicits.

(** * The rest of the file *)

(** ** The format of a synchronization source (lines 13-24) *)

Section FindFormat.

(** [serverSessionFormat] is declared in another file; of a format the
    function reads only [format.udpRTCPReceiver.LastSSRC()], a [uint32] and
    a flag that tells whether it is set. *)
Context {serverSessionFormat : Type}.
Context (LastSSRC : serverSessionFormat → Z * bool).

(** [func serverFindFormatWithSSRC(formats, ssrc)].  Go leaves the order in
    which [range] visits a map open, so the loop is run on the entries of the
    map in the order the runtime picked, which is an argument; [nil] is
    [None]. *)
Fixpoint serverFindFormatWithSSRC
    (formats : list (Z * serverSessionFormat)) (ssrc : Z)
    : option serverSessionFormat :=
  match formats with
  | [] => None
  | (_, format) :: formats =>
      let '(tssrc, ok) := LastSSRC format in
      if ok && (tssrc =? ssrc) then Some format
      else serverFindFormatWithSSRC formats ssrc
  end.

(** An order in which [range] may visit the map [formats]. *)
Definition range_order (formats : gmap Z serverSessionFormat)
    (order : list (Z * serverSessionFormat)) : Prop :=
  order ≡ₚ map_to_list formats.

End FindFormat.

(** ** The accessor [ip] (lines 174-176) and what the properties need *)

Section Accessors.

Context {App : Type} {plat : Platform} {env : Env}.

(** [func (u *serverUDPListener) ip() net.IP] *)
Definition ip (u : serverUDPListener App) : IP := listenIP u.

(** What one iteration of [run] hands over for the datagram [d] when the
    registry is [m]: the handler of the sender and the bytes it is called
    with, if a handler is bound to the sender. *)
Definition delivered (m : gmap clientAddr (readFunc App)) (d : datagram)
    : option (readFunc App * list byte) :=
  cb ← m !! clientAddr_of (addr_IP (dg_from d)) (addr_Port (dg_from d));
  Some (cb, take (udpMaxPayloadSize + 1)%nat (dg_data d)).


(** All keys of the registry are 16-byte keys. *)
Definition registry_wf (u : serverUDPListener App) : Prop :=
  ∀ k cb, clients u !! k = Some cb → wf_clientAddr k.

End Accessors.

(** * A test double

    A platform and a system to run the listener against: stand-ins for the
    library functions that are right on the addresses used below, a
    [listenPacket] that opens a fresh UDP socket at each call, and a system
    with the interfaces [lo] and [eth0] whose answers are chosen by the
    test. *)

Fixpoint test_SplitHostPort (hostport : string) : result (string * string) :=
  match hostport with
  | EmptyString => Err "missing port in address"
  | String c rest =>
      if String.eqb (String c EmptyString) ":" then Ok (EmptyString, rest)
      else match test_SplitHostPort rest with
           | Ok (host, port) => Ok (String c host, port)
           | Err e => Err e
           end
  end.

Definition test_group : IP := [xe0; x01; x00; x01].

Definition test_platform : Platform := {|
  udpMaxPayloadSize := 1472;
  udpKernelReadBufferSize := 524288;
  multicastTTL := 16;
  restrictNetwork := λ network address, (network, address);
  SplitHostPort := test_SplitHostPort;
  ParseIP := λ _, test_group;
  JoinHostPort := λ host port, host +:+ ":" +:+ port;
  IP_String := λ _, "224.1.0.1";
  FormatInt := λ i _, pretty i;
|}.

Definition is_listen (c : call) : bool :=
  match c with CallListen _ _ _ => true | _ => false end.

(** The handle of the [n]-th socket opened is [n]. *)
Definition test_listenPacket : listenPacketFunc :=
  λ network address w,
    let p := {| conn_fd := length (filter is_listen (os_log w));
                conn_udp := true |} in
    (Ok p, {| os_open := os_open w ∪ {[conn_fd p]};
              os_loops := os_loops w;
              os_log := os_log w ++ [CallListen network address p] |}).

Definition test_lo : Interface :=
  {| intf_Index := 1; intf_Name := "lo"; intf_Flags := 37 |}.

Definition test_eth0 : Interface :=
  {| intf_Index := 2; intf_Name := "eth0"; intf_Flags := 51 |}.

(** [ttl]: what [SetMulticastTTL] answers; [join]: whether [eth0] accepts the
    join; [nobuf]: the handles on which [SetReadBuffer] fails. *)
Definition test_env (ttl : option error) (join : bool) (nobuf : list nat)
    : Env := {|
  env_Interfaces := λ _, Ok [test_lo; test_eth0];
  env_JoinGroup := λ _ _ intf _,
    if join then None else Some "no such device";
  env_SetMulticastTTL := λ _ _ _, ttl;
  env_SetReadBuffer := λ _ p _,
    if bool_decide (conn_fd p ∈ nobuf) then Some "no buffer space available"
    else None;
  env_LocalAddr := λ _ _,
    {| addr_IP := [x7f; x00; x00; x01]; addr_Port := 8000;
       addr_Zone := EmptyString |};
|}.

Definition os_empty : OS := {| os_open := ∅; os_loops := ∅; os_log := [] |}.

(** The collaborator of the tests counts the bytes its handler was given. *)
Definition test_handler : readFunc nat :=
  λ payload n, (n + length payload)%nat.

Definition test_ip : IP := [x7f; x00; x00; x01].

Definition test_peer (port : Z) : UDPAddr :=
  {| addr_IP := test_ip; addr_Port := port; addr_Zone := EmptyString |}.

(** A listener with one client, 127.0.0.1:5000. *)
Definition test_listener : serverUDPListener nat :=
  addClient
    {| pc := {| conn_fd := 0; conn_udp := true |}; listenIP := test_ip;
       writeTimeout := 0; clients := ∅ |}
    test_ip 5000 test_handler.

(** The datagram "ping" from 127.0.0.1 and the given port. *)
Definition test_ping (port : Z) : datagram :=
  {| dg_data := [x70; x69; x6e; x67]; dg_from := test_peer port |}.

(** A run of the system: a datagram is dispatched, [close] is called, the
    blocked read fails, the loop returns, [close] returns. *)
Definition test_events : list (event nat) :=
  [EvRead (ReadDatagram (test_ping 5000)); EvCloseSocket;
   EvRead (ReadError "use of closed network connection"); EvDeferred;
   EvCloseReturn].

Definition test_final : sys nat :=
  default (sys_init test_listener 0%nat)
    (steps (plat := test_platform) test_events
       (sys_init test_listener 0%nat)).

Definition test_conn (fd : nat) : PacketConn :=
  {| conn_fd := fd; conn_udp := true |}.

(** The socket and the system after lines 113-149, on the multicast and on
    the unicast path of the test. *)
Definition test_bound (multicast : bool) (address : string)
    : outcome (PacketConn * IP) * OS :=
  bind_socket (plat := test_platform) (env := test_env None true [0%nat])
    test_listenPacket multicast address os_empty.

(** The three failures after the socket of the test was opened. *)
Definition test_failed (env : Env) (multicast : bool) (address : string)
    : outcome (serverUDPListener nat) * OS :=
  newServerUDPListener (plat := test_platform) (env := env)
    test_listenPacket 0 multicast address os_empty.

(** The pair of multicast listeners on ports 5000 and 5001 of 224.1.0.1,
    in a system where [eth0] accepts the join or not and [SetReadBuffer]
    fails on the handles [nobuf]. *)
Definition test_pair (join : bool) (nobuf : list nat)
    : outcome (serverUDPListener nat * serverUDPListener nat) * OS :=
  newServerUDPListenerMulticastPair (plat := test_platform)
    (env := test_env None join nobuf) test_listenPacket 0 5000 5001
    test_group os_empty.

(** Formats for the tests: the payload type, the SSRC last seen and whether
    one was seen. *)
Record test_format := {
  tf_payloadType : Z;
  tf_ssrc : Z;
  tf_seen : bool;
}.

Definition test_LastSSRC (f : test_format) : Z * bool :=
  (tf_ssrc f, tf_seen f).

(** Three formats: 96 has seen SSRC 1111, 97 has seen 2222, 98 has seen none
    (and holds the zero value 0). *)
Definition test_formats : gmap Z test_format :=
  <[96 := {| tf_payloadType := 96; tf_ssrc := 1111; tf_seen := true |}]>
  (<[97 := {| tf_payloadType := 97; tf_ssrc := 2222; tf_seen := true |}]>
  (<[98 := {| tf_payloadType := 98; tf_ssrc := 0; tf_seen := false |}]> ∅)).

(** A system in which the interfaces cannot be listed. *)
Definition test_env_nolist : Env := {|
  env_Interfaces := λ _, Err "too many open files";
  env_JoinGroup := λ _ _ _ _, None;
  env_SetMulticastTTL := λ _ _ _, None;
  env_SetReadBuffer := λ _ _ _, None;
  env_LocalAddr := λ _ _,
    {| addr_IP := [x7f; x00; x00; x01]; addr_Port := 8000;
       addr_Zone := EmptyString |};
|}.

(** A [listenPacket] whose sockets are not UDP sockets. *)
Definition test_listenPacket_other : listenPacketFunc :=
  λ network address w,
    let p := {| conn_fd := length (filter is_listen (os_log w));
                conn_udp := false |} in
    (Ok p, {| os_open := os_open w ∪ {[conn_fd p]};
              os_loops := os_loops w;
              os_log := os_log w ++ [CallListen network address p] |}).

(** The datagram "ping" from ::ffff:127.0.0.1 and port 5000. *)
Definition test_ping_mapped : datagram :=
  {| dg_data := [x70; x69; x6e; x67];
     dg_from := {| addr_IP := v4InV6Prefix ++ test_ip; addr_Port := 5000;
                   addr_Zone := EmptyString |} |}.

(** A running system with the client of [test_listener]. *)
Definition test_sys : sys nat := sys_init test_listener 0%nat.

(** * Properties *)

Section Properties.

Context {App : Type} {plat : Platform} {env : Env}.

(** ** The client address key *)

(** A list of known length is its elements. *)
Ltac explode_list l H :=
  repeat (destruct l as [|? l]; simpl in H; try (exfalso; lia));
  clear H.

Lemma go_copy_length {A} (dst src : list A) :
  length (go_copy dst src) = length dst.
Proof.
  unfold go_copy. rewrite length_app, length_take, length_drop. lia.
Qed.

Lemma go_copy_full {A} (dst src : list A) :
  length src = length dst → go_copy dst src = src.
Proof.
  intros H. unfold go_copy.
  rewrite take_ge by lia. rewrite drop_ge by lia. apply app_nil_r.
Qed.

Lemma fill_port (p : clientAddr) (ip : IP) (port : Z) :
  ca_port (fill p ip port) = port.
Proof. unfold fill. case_decide; reflexivity. Qed.

Lemma fill_ip_v4 (p : clientAddr) (ip : IP) (port : Z) :
  wf_clientAddr p → length ip = IPv4len →
  ca_ip (fill p ip port) = v4InV6Prefix ++ ip.
Proof.
  unfold wf_clientAddr, IPv6len, IPv4len. intros Hp Hip.
  unfold fill. rewrite decide_True by exact Hip.
  destruct p as [a q]. simpl in *.
  explode_list a Hp. explode_list ip Hip. reflexivity.
Qed.

Lemma fill_ip_other (p : clientAddr) (ip : IP) (port : Z) :
  length ip ≠ IPv4len →
  ca_ip (fill p ip port) = go_copy (ca_ip p) ip.
Proof.
  intros Hip. unfold fill. rewrite decide_False by exact Hip. reflexivity.
Qed.

Lemma fill_ip_v6 (p : clientAddr) (ip : IP) (port : Z) :
  wf_clientAddr p → length ip = IPv6len →
  ca_ip (fill p ip port) = ip.
Proof.
  intros Hp Hip. rewrite fill_ip_other.
  - apply go_copy_full. unfold wf_clientAddr in Hp. congruence.
  - rewrite Hip. discriminate.
Qed.

Lemma fill_wf (p : clientAddr) (ip : IP) (port : Z) :
  wf_clientAddr p → wf_clientAddr (fill p ip port).
Proof.
  intros Hp. unfold wf_clientAddr.
  destruct (decide (length ip = IPv4len)) as [H4|H4].
  - rewrite fill_ip_v4 by assumption. rewrite length_app, H4. reflexivity.
  - rewrite fill_ip_other by assumption. rewrite go_copy_length. exact Hp.
Qed.

Lemma clientAddr_zero_wf : wf_clientAddr clientAddr_zero.
Proof. reflexivity. Qed.

(** C3: [fill(rawIP, port)] on a [clientAddr] sets the port to [port]; for a
    4-byte [rawIP] the stored address is the 12-byte prefix
    00:00:00:00:00:00:00:00:00:00:ff:ff followed by the 4 bytes; otherwise
    the address is copied over the stored one, which for a 16-byte [rawIP]
    leaves exactly [rawIP].  The stored address keeps its 16 bytes. *)
Theorem fill_spec (p : clientAddr) (rawIP : IP) (port : Z) :
  wf_clientAddr p →
  ca_port (fill p rawIP port) = port ∧
  (length rawIP = 4%nat →
     ca_ip (fill p rawIP port) = v4InV6Prefix ++ rawIP) ∧
  (length rawIP ≠ 4%nat →
     ca_ip (fill p rawIP port) = go_copy (ca_ip p) rawIP) ∧
  (length rawIP = 16%nat → ca_ip (fill p rawIP port) = rawIP) ∧
  wf_clientAddr (fill p rawIP port).
Proof.
  intros Hp. split; [apply fill_port|].
  split; [intros H; now apply fill_ip_v4|].
  split; [intros H; now apply fill_ip_other|].
  split; [intros H; now apply fill_ip_v6|].
  now apply fill_wf.
Qed.

Lemma clientAddr_of_v4 (ip : IP) (port : Z) :
  length ip = IPv4len →
  clientAddr_of ip port = ClientAddr (v4InV6Prefix ++ ip) port.
Proof.
  intros H. unfold clientAddr_of.
  pose proof (fill_ip_v4 clientAddr_zero ip port clientAddr_zero_wf H) as Hi.
  pose proof (fill_port clientAddr_zero ip port) as Hq.
  destruct (fill clientAddr_zero ip port). simpl in *. congruence.
Qed.

Lemma clientAddr_of_v6 (ip : IP) (port : Z) :
  length ip = IPv6len →
  clientAddr_of ip port = ClientAddr ip port.
Proof.
  intros H. unfold clientAddr_of.
  pose proof (fill_ip_v6 clientAddr_zero ip port clientAddr_zero_wf H) as Hi.
  pose proof (fill_port clientAddr_zero ip port) as Hq.
  destruct (fill clientAddr_zero ip port). simpl in *. congruence.
Qed.

(** C4: for an IPv4 address [a] (4 bytes), the IPv6 address [b] that is its
    IPv4-in-IPv6-mapped form, and any port [p], the key built from [(a, p)]
    is the key built from [(b, p)]. *)
Theorem clientAddr_of_mapped (a b : IP) (p : Z) :
  length a = IPv4len → b = v4InV6Prefix ++ a →
  clientAddr_of a p = clientAddr_of b p.
Proof.
  intros Ha ->. rewrite clientAddr_of_v4 by exact Ha.
  rewrite clientAddr_of_v6; [reflexivity|].
  rewrite length_app, Ha. reflexivity.
Qed.


(** ** The client registry *)

Lemma set_clients_id (u : serverUDPListener App) :
  set_clients u (clients u) = u.
Proof. destruct u; reflexivity. Qed.

Lemma set_clients_twice (u : serverUDPListener App)
    (m1 m2 : gmap clientAddr (readFunc App)) :
  set_clients (set_clients u m1) m2 = set_clients u m2.
Proof. reflexivity. Qed.

(** C6: [addClient] binds the key to the handler, replacing an earlier
    binding of the key and leaving the other keys as they were, so a later
    [addClient] for the key wins; [removeClient] unbinds the key and leaves
    the other keys as they were, and changes nothing when the key is not
    bound; [addClient] followed by [removeClient] for the same address
    leaves the registry without the key. *)
Theorem registry_add_remove (u : serverUDPListener App) (ip : IP) (port : Z)
    (cb : readFunc App) :
  let k := clientAddr_of ip port in
  clients (addClient u ip port cb) !! k = Some cb ∧
  (∀ k', k' ≠ k →
     clients (addClient u ip port cb) !! k' = clients u !! k') ∧
  (∀ cb', addClient (addClient u ip port cb') ip port cb
          = addClient u ip port cb) ∧
  clients (removeClient u ip port) !! k = None ∧
  (∀ k', k' ≠ k →
     clients (removeClient u ip port) !! k' = clients u !! k') ∧
  (clients u !! k = None → removeClient u ip port = u) ∧
  clients (removeClient (addClient u ip port cb) ip port) !! k = None ∧
  removeClient (addClient u ip port cb) ip port = removeClient u ip port.
Proof.
  intros k. unfold addClient, removeClient. fold (clientAddr_of ip port).
  fold k. simpl. repeat split.
  - apply lookup_insert_eq.
  - intros k' Hk. now apply lookup_insert_ne.
  - intros cb'. rewrite set_clients_twice. f_equal. apply insert_insert_eq.
  - apply lookup_delete_eq.
  - intros k' Hk. now apply lookup_delete_ne.
  - intros Hk. rewrite delete_id by exact Hk. apply set_clients_id.
  - apply lookup_delete_eq.
  - rewrite set_clients_twice. f_equal. apply delete_insert_eq.
Qed.

(** ** The receive loop *)

Arguments run_iter : simpl never.

Lemma ReadFromUDP_fresh (N : nat) (d : datagram) :
  ReadFromUDP (replicate N x00) d =
  (Nat.min (length (dg_data d)) N, dg_from d,
   take N (dg_data d) ++ replicate (N - length (dg_data d)) x00).
Proof.
  unfold ReadFromUDP, go_copy.
  rewrite length_replicate, drop_replicate. reflexivity.
Qed.

Lemma take_read_buffer (N : nat) (data : list byte) :
  take (Nat.min (length data) N)
    (take N data ++ replicate (N - length data) x00)
  = take (Nat.min (length data) N) data.
Proof.
  rewrite take_app_le by (rewrite length_take; lia).
  rewrite take_take. f_equal. lia.
Qed.

Lemma dispatch_frame (buf : list byte) (n : nat) (addr : UDPAddr)
    (s : sys App) :
  let s' := dispatch buf n addr s in
  lst s' = lst s ∧ sock_closed s' = sock_closed s ∧
  done_fired s' = done_fired s ∧ loop s' = loop s ∧ closer s' = closer s.
Proof.
  unfold dispatch. simpl.
  destruct (clients (lst s) !! _); simpl; repeat split.
Qed.

Lemma run_iter_frame (d : datagram) (s : sys App) :
  let s' := run_iter (ReadDatagram d) s in
  lst s' = lst s ∧ sock_closed s' = sock_closed s ∧
  done_fired s' = done_fired s ∧ loop s' = loop s ∧ closer s' = closer s.
Proof.
  unfold run_iter.
  destruct (ReadFromUDP (replicate (udpMaxPayloadSize + 1)%nat x00) d)
    as [[n addr] buf].
  apply dispatch_frame.
Qed.

(** C1: when a read of the loop succeeds with [n] bytes from [addr], the key
    of [addr]'s IP and port is looked up once in the registry; a handler
    bound to it is called once, on the first [n] bytes of the buffer (the
    payload read, not the whole buffer); with no handler bound nothing is
    called and the state of the collaborators, the registry, the socket and
    the channel are as before; either way the loop is back at its read. *)
Theorem run_iter_dispatch (s : sys App) (d : datagram) (n : nat)
    (addr : UDPAddr) (buf : list byte) :
  loop s = AtRead → sock_closed s = false →
  ReadFromUDP (replicate (udpMaxPayloadSize + 1)%nat x00) d = (n, addr, buf) →
  ∃ s', step (EvRead (ReadDatagram d)) s = Some s' ∧
    addr = dg_from d ∧
    length buf = (udpMaxPayloadSize + 1)%nat ∧
    length (take n buf) = n ∧
    take n buf = take n (dg_data d) ∧
    lst s' = lst s ∧ sock_closed s' = sock_closed s ∧
    done_fired s' = done_fired s ∧ closer s' = closer s ∧
    loop s' = AtRead ∧ lookups s' = S (lookups s) ∧
    (∀ reads, run (ReadDatagram d :: reads) s = run reads s') ∧
    match clients (lst s) !! clientAddr_of (addr_IP addr) (addr_Port addr) with
    | Some cb =>
        app s' = cb (take n buf) (app s) ∧
        calls s' = calls s ++ [(cb, take n buf)]
    | None => app s' = app s ∧ calls s' = calls s
    end.
Proof.
  intros Hloop Hsock Hread.
  exists (run_iter (ReadDatagram d) s).
  split.
  { simpl. rewrite decide_True by exact Hloop. now rewrite Hsock. }
  pose proof Hread as Hread'.
  rewrite ReadFromUDP_fresh in Hread'. injection Hread' as Hn Ha Hb.
  split; [now symmetry|].
  split.
  { rewrite <- Hb, length_app, length_take, length_replicate. lia. }
  split.
  { rewrite <- Hb, <- Hn, take_read_buffer, length_take. lia. }
  split.
  { rewrite <- Hb, <- Hn. apply take_read_buffer. }
  assert (Hs' : run_iter (ReadDatagram d) s = dispatch buf n addr s).
  { unfold run_iter. now rewrite Hread. }
  destruct (dispatch_frame buf n addr s) as (F1 & F2 & F3 & F4 & F5).
  split; [now rewrite Hs'|]. split; [now rewrite Hs'|].
  split; [now rewrite Hs'|]. split; [now rewrite Hs'|].
  split; [rewrite Hs'; congruence|].
  split.
  { rewrite Hs'. unfold dispatch. simpl.
    now destruct (clients (lst s) !! _). }
  split.
  { intros reads. reflexivity. }
  rewrite Hs'. unfold dispatch, clientAddr_of. simpl.
  destruct (clients (lst s) !! _); simpl; split; reflexivity.
Qed.

(** ** The shutdown rendezvous *)

Ltac step_cases He :=
  match type of He with
  | step ?e ?s = Some ?s' =>
      destruct e as [[d|err]| |ip port cb|ip port| |]; unfold step in He;
      repeat case_decide; try discriminate;
      try match type of He with
          | context [if sock_closed s then _ else _] =>
              destruct (sock_closed s) eqn:Hsock; try discriminate
          end;
      apply (inj Some) in He; subst s'
  end.

Lemma rendezvous_inv_init (u : serverUDPListener App) (a : App) :
  rendezvous_inv (sys_init u a).
Proof. unfold rendezvous_inv. simpl. repeat split; congruence. Qed.

Lemma rendezvous_inv_step (e : event App) (s s' : sys App) :
  rendezvous_inv s → step e s = Some s' → rendezvous_inv s'.
Proof.
  intros (H1 & H2 & H3 & H4) He. unfold rendezvous_inv.
  step_cases He;
    try (destruct (run_iter_frame d s) as (_ & -> & -> & -> & ->);
         rewrite Hsock);
    simpl; try tauto.
  - repeat split; try congruence; try tauto. intros _. apply H2. congruence.
  - rewrite H2 by congruence. repeat split; try congruence; try tauto.
  - repeat split; try tauto; congruence.
  - repeat split; try tauto.
    + intros _. destruct (decide (loop s = Exited)) as [Hx|Hx]; [tauto|].
      rewrite H2 in * by exact Hx. lia.
    + intros _. apply H4. congruence.
Qed.

Lemma rendezvous_inv_steps (es : list (event App)) (s s' : sys App) :
  rendezvous_inv s → steps es s = Some s' → rendezvous_inv s'.
Proof.
  revert s. induction es as [|e es IH]; simpl; intros s Hs He.
  - now injection He as <-.
  - destruct (step e s) as [s1|] eqn:H1; [|discriminate].
    eapply IH; [|exact He]. eapply rendezvous_inv_step; eauto.
Qed.

Lemma reachable_inv (u : serverUDPListener App) (a : App) (s : sys App) :
  reachable u a s → rendezvous_inv s.
Proof.
  intros [es Hes]. eapply rendezvous_inv_steps; [|exact Hes].
  apply rendezvous_inv_init.
Qed.

(** Once [run] has returned, no step looks up the registry, calls a handler
    or closes the channel again. *)
Lemma exited_step (e : event App) (s s' : sys App) :
  loop s = Exited → step e s = Some s' →
  loop s' = Exited ∧ lookups s' = lookups s ∧ calls s' = calls s ∧
  app s' = app s ∧ done_fired s' = done_fired s.
Proof.
  intros Hx He. step_cases He; simpl; try congruence; repeat split; auto.
Qed.

Lemma exited_steps (es : list (event App)) (s s' : sys App) :
  loop s = Exited → steps es s = Some s' →
  loop s' = Exited ∧ lookups s' = lookups s ∧ calls s' = calls s ∧
  app s' = app s ∧ done_fired s' = done_fired s.
Proof.
  revert s. induction es as [|e es IH]; simpl; intros s Hx He.
  - injection He as <-. repeat split; auto.
  - destruct (step e s) as [s1|] eqn:H1; [|discriminate].
    destruct (exited_step e s s1 Hx H1) as (Hx1 & <- & <- & <- & <-).
    now apply IH.
Qed.

(** [run] on its own: datagrams keep the loop at its read; the first read
    error ends it, the channel being closed once more than before. *)
Lemma run_datagrams (ds : list datagram) (s : sys App) :
  loop s = AtRead →
  loop (run (ReadDatagram <$> ds) s) = AtRead ∧
  done_fired (run (ReadDatagram <$> ds) s) = done_fired s.
Proof.
  revert s. induction ds as [|d ds IH]; simpl; intros s Hl; [auto|].
  destruct (run_iter_frame d s) as (_ & _ & Hd & Hlp & _).
  destruct (IH (run_iter (ReadDatagram d) s)) as [IH1 IH2]; [congruence|].
  split; [exact IH1|]. etransitivity; [exact IH2|exact Hd].
Qed.

Lemma run_read_error (ds : list datagram) (err : error)
    (rest : list read_outcome) (s : sys App) :
  loop s = AtRead →
  let s' := run ((ReadDatagram <$> ds) ++ ReadError err :: rest) s in
  loop s' = Exited ∧ done_fired s' = S (done_fired s) ∧
  s' = run_deferred (set_loop Broke (run (ReadDatagram <$> ds) s)).
Proof.
  revert s. induction ds as [|d ds IH]; simpl; intros s Hl.
  - repeat split.
  - destruct (run_iter_frame d s) as (_ & _ & Hd & Hlp & _).
    destruct (IH (run_iter (ReadDatagram d) s)) as (IH1 & IH2 & IH3);
      [congruence|].
    split; [exact IH1|]. split; [|exact IH3].
    etransitivity; [exact IH2|]. now rewrite Hd.
Qed.

(** C2: a read error ends the loop, whatever state it is in, and no read
    follows; the channel [done] is closed by the deferred call when [run]
    returns, once in all and never before; the receive of [close] on [done]
    cannot return while the channel is open, so when [close] has returned
    the socket is closed, the channel is closed and [run] has returned; and
    from then on no step of the system looks up the registry or calls a
    handler. *)
Theorem close_rendezvous (u : serverUDPListener App) (a : App) (s : sys App) :
  reachable u a s →
  (loop s = AtRead → ∀ err,
     ∃ s1 s2,
       step (EvRead (ReadError err)) s = Some s1 ∧ loop s1 = Broke ∧
       (∀ o, step (EvRead o) s1 = None) ∧
       step EvDeferred s1 = Some s2 ∧ loop s2 = Exited ∧
       done_fired s2 = 1%nat ∧
       (∀ ds rest,
          loop (run ((ReadDatagram <$> ds) ++ ReadError err :: rest) s)
            = Exited ∧
          done_fired (run ((ReadDatagram <$> ds) ++ ReadError err :: rest) s)
            = 1%nat)) ∧
  ((done_fired s ≤ 1)%nat ∧ (loop s = Exited ↔ done_fired s = 1%nat) ∧
   (loop s = Exited → step EvDeferred s = None)) ∧
  (done_fired s = 0%nat → step EvCloseReturn s = None) ∧
  (closer s = Returned →
     sock_closed s = true ∧ done_fired s = 1%nat ∧ loop s = Exited) ∧
  (closer s = Returned → ∀ es s', steps es s = Some s' →
     lookups s' = lookups s ∧ calls s' = calls s ∧ app s' = app s ∧
     done_fired s' = 1%nat ∧ closer s' = Returned).
Proof.
  intros Hr. pose proof (reachable_inv u a s Hr) as (H1 & H2 & H3 & H4).
  assert (Hx : closer s = Returned → loop s = Exited).
  { intros Hc. destruct (decide (loop s = Exited)) as [|Hn]; [assumption|].
    rewrite (H3 Hc) in H2. specialize (H2 Hn). discriminate. }
  split; [|split; [|split; [|split]]].
  - intros Hl err.
    exists (set_loop Broke s), (run_deferred (set_loop Broke s)).
    simpl. rewrite decide_True by exact Hl.
    repeat split.
    + intros [d|e]; reflexivity.
    + rewrite H2; [reflexivity|congruence].
    + apply (run_read_error ds err rest s Hl).
    + destruct (run_read_error ds err rest s Hl) as (_ & -> & _).
      rewrite H2; [reflexivity|congruence].
  - repeat split.
    + destruct (decide (loop s = Exited)) as [Hl|Hl];
        [rewrite H1|rewrite H2]; auto.
    + exact H1.
    + intros Hd. destruct (decide (loop s = Exited)) as [Hl|Hl]; [exact Hl|].
      rewrite H2 in Hd by exact Hl. discriminate.
    + intros Hl. simpl. rewrite decide_False; [reflexivity|congruence].
  - intros Hd. simpl. case_decide; [|reflexivity].
    rewrite decide_False; [reflexivity|lia].
  - intros Hc. repeat split; auto. apply H4. congruence.
  - intros Hc es s' Hes.
    destruct (exited_steps es s s' (Hx Hc) Hes) as (_ & -> & -> & -> & ->).
    repeat split; auto.
    clear -Hc Hes. revert s Hc Hes.
    induction es as [|e es IH]; simpl; intros s Hc Hes.
    + now injection Hes as <-.
    + destruct (step e s) as [s1|] eqn:He; [|discriminate].
      apply (IH s1); [|exact Hes].
      step_cases He; simpl; try congruence.
      destruct (run_iter_frame d s) as (_ & _ & _ & _ & ->).
      exact Hc.
Qed.

(** ** The multicast join *)

Lemma join_interfaces_spec (p : PacketConn) (group : IP)
    (intfs : list Interface) (success : bool) (w : OS) :
  ∃ attempts : list (Interface * option error),
    attempts.*1 = filter multicast_capable intfs ∧
    os_open (join_interfaces p group intfs success w).2 = os_open w ∧
    os_loops (join_interfaces p group intfs success w).2 = os_loops w ∧
    os_log (join_interfaces p group intfs success w).2
      = os_log w ++ join_calls p group attempts ∧
    ((join_interfaces p group intfs success w).1 = true ↔
       success = true ∨ ∃ a, a ∈ attempts ∧ joined a).
Proof.
  revert success w. induction intfs as [|intf intfs IH]; intros success w.
  - exists []. simpl. rewrite app_nil_r. repeat split; auto.
    intros [H|(a & Ha & _)]; [exact H|]. now apply elem_of_nil in Ha.
  - simpl. destruct (decide (multicast_capable intf)) as [Hm|Hm].
    + unfold bind, JoinGroup.
      set (r := env_JoinGroup w p intf group).
      set (w1 := log_call (CallJoinGroup p intf group r) w).
      destruct (IH (match r with None => true | Some _ => success end) w1)
        as (attempts & Hf & Ho & Hl & Hg & Hs).
      exists ((intf, r) :: attempts).
      split; [rewrite filter_cons_True by exact Hm; rewrite fmap_cons, Hf;
              reflexivity|].
      split; [exact Ho|]. split; [exact Hl|].
      split.
      { rewrite Hg. unfold w1, join_calls. simpl.
        rewrite <- app_assoc. reflexivity. }
      rewrite Hs. split.
      * intros [H|(a & Ha & Hj)].
        -- destruct r; [auto|]. right. exists (intf, None).
           split; [apply list_elem_of_here|reflexivity].
        -- right. exists a. split; [now apply list_elem_of_further|exact Hj].
      * intros [H|(a & Ha & Hj)].
        -- left. now destruct r.
        -- apply elem_of_cons in Ha as [->|Ha].
           ++ left. unfold joined in Hj. simpl in Hj. now rewrite Hj.
           ++ right. now exists a.
    + destruct (IH success w) as (attempts & Hf & Ho & Hl & Hg & Hs).
      exists attempts. rewrite filter_cons_False by exact Hm.
      repeat (split; [assumption|]). exact Hs.
Qed.

(** C7: when the interfaces can be listed, the join is attempted on each
    multicast-capable interface, in order, and on no other; the function
    returns no error exactly when one of these attempts succeeded, and the
    error "unable to activate multicast on any network interface" when none
    did, which includes the case of no multicast-capable interface. *)
Theorem join_at_least_one (p : PacketConn) (listenIP : IP) (w : OS)
    (intfs : list Interface) :
  env_Interfaces w = Ok intfs →
  ∃ attempts : list (Interface * option error),
    attempts.*1 = filter multicast_capable intfs ∧
    os_log (joinMulticastGroupOnAtLeastOneInterface p listenIP w).2
      = os_log w ++ CallInterfaces :: join_calls p listenIP attempts ∧
    ((joinMulticastGroupOnAtLeastOneInterface p listenIP w).1 = None ↔
       ∃ a, a ∈ attempts ∧ joined a) ∧
    ((¬ ∃ a, a ∈ attempts ∧ joined a) →
       (joinMulticastGroupOnAtLeastOneInterface p listenIP w).1
         = Some errNoMulticastInterface) ∧
    (filter multicast_capable intfs = [] →
       (joinMulticastGroupOnAtLeastOneInterface p listenIP w).1
         = Some errNoMulticastInterface).
Proof.
  intros Hi. unfold joinMulticastGroupOnAtLeastOneInterface, bind.
  unfold net_Interfaces. rewrite Hi.
  destruct (join_interfaces_spec p listenIP intfs false
              (log_call CallInterfaces w))
    as (attempts & Hf & _ & _ & Hg & Hs).
  exists attempts.
  destruct (join_interfaces p listenIP intfs false
              (log_call CallInterfaces w)) as [success w1] eqn:Hj.
  simpl in *. split; [exact Hf|]. split.
  { destruct success; simpl; rewrite Hg, <- app_assoc; reflexivity. }
  assert (Hiff : success = true ↔ ∃ a, a ∈ attempts ∧ joined a).
  { rewrite Hs. split; [intros [H|H]; [discriminate|exact H]|auto]. }
  split; [|split].
  - destruct success; simpl; split; try discriminate; try tauto.
    intros H. apply Hiff in H. discriminate.
  - intros Hn. destruct success; simpl; [|reflexivity].
    exfalso. apply Hn. now apply Hiff.
  - intros Hnil. destruct success; simpl; [|reflexivity].
    destruct Hiff as [Hex _]. destruct (Hex eq_refl) as (a & Ha & _).
    rewrite Hnil in Hf. apply fmap_nil_inv in Hf. subst attempts.
    now apply elem_of_nil in Ha.
Qed.

(** ** Construction *)

Lemma quiet_refl (w : OS) : quiet w w.
Proof.
  repeat split. exists []. rewrite app_nil_r.
  split; [reflexivity|]. intros p. split; apply not_elem_of_nil.
Qed.

Lemma quiet_trans (w1 w2 w3 : OS) : quiet w1 w2 → quiet w2 w3 → quiet w1 w3.
Proof.
  intros (Ho1 & Hl1 & l1 & Hg1 & Hn1) (Ho2 & Hl2 & l2 & Hg2 & Hn2).
  split; [congruence|]. split; [congruence|].
  exists (l1 ++ l2). rewrite Hg2, Hg1, app_assoc. split; [reflexivity|].
  intros p. rewrite !elem_of_app.
  destruct (Hn1 p), (Hn2 p). tauto.
Qed.

Lemma quiet_log_call (c : call) (w : OS) :
  (∀ p, c ≠ CallClose p ∧ c ≠ CallGoRun p) → quiet w (log_call c w).
Proof.
  intros Hc. repeat split. exists [c]. split; [reflexivity|].
  intros p. rewrite !list_elem_of_singleton.
  destruct (Hc p) as [H1 H2]. split; congruence.
Qed.

Lemma quiet_join_interfaces (p : PacketConn) (group : IP)
    (intfs : list Interface) (success : bool) (w : OS) :
  quiet w (join_interfaces p group intfs success w).2.
Proof.
  destruct (join_interfaces_spec p group intfs success w)
    as (attempts & _ & Ho & Hl & Hg & _).
  split; [exact Ho|]. split; [exact Hl|].
  exists (join_calls p group attempts). split; [exact Hg|].
  intros q. unfold join_calls. rewrite !list_elem_of_fmap.
  split; intros (a & Ha & _); discriminate.
Qed.

Lemma quiet_join (p : PacketConn) (group : IP) (w : OS) :
  quiet w (joinMulticastGroupOnAtLeastOneInterface p group w).2.
Proof.
  unfold joinMulticastGroupOnAtLeastOneInterface, bind, net_Interfaces.
  assert (Hq : quiet w (log_call CallInterfaces w)).
  { apply quiet_log_call. intros q. split; discriminate. }
  destruct (env_Interfaces w) as [intfs|err]; [|exact Hq].
  pose proof (quiet_join_interfaces p group intfs false
                (log_call CallInterfaces w)) as Hj.
  destruct (join_interfaces p group intfs false (log_call CallInterfaces w))
    as [success w1].
  simpl in Hj. destruct success; simpl; eapply quiet_trans; eauto.
Qed.

Lemma quiet_SetMulticastTTL (p : PacketConn) (ttl : Z) (w : OS) :
  quiet w (SetMulticastTTL p ttl w).2.
Proof. apply quiet_log_call. intros q. split; discriminate. Qed.

Lemma quiet_SetReadBuffer (p : PacketConn) (size : Z) (w : OS) :
  quiet w (SetReadBuffer p size w).2.
Proof. apply quiet_log_call. intros q. split; discriminate. Qed.

(** After [listenPacket] has returned the socket [tmp], the rest of lines
    113-149 is quiet, and the socket it yields is [tmp]. *)
Lemma bind_socket_after_open (listenPacket : listenPacketFunc)
    (multicast : bool) (address network addr : string) (tmp : PacketConn)
    (w w0 w1 : OS) (r : outcome (PacketConn * IP)) :
  listen_args multicast address = Some (network, addr) →
  listenPacket network addr w = (Ok tmp, w0) →
  bind_socket listenPacket multicast address w = (r, w1) →
  quiet w0 w1 ∧ (∀ pc ip, r = Ret (pc, ip) → pc = tmp).
Proof.
  unfold listen_args, bind_socket. intros Ha Hl Hb.
  destruct multicast; simpl in Ha.
  - destruct (SplitHostPort address) as [[host port]|err]; [|discriminate].
    injection Ha as Ha. rewrite Ha in Hb. unfold bind at 1 in Hb.
    rewrite Hl in Hb. unfold bind at 1 in Hb.
    pose proof (quiet_SetMulticastTTL tmp multicastTTL w0) as Hq1.
    destruct (SetMulticastTTL tmp multicastTTL w0) as [[e|] w2]; simpl in Hq1.
    { injection Hb as <- <-. split; [exact Hq1|discriminate]. }
    unfold bind at 1 in Hb.
    pose proof (quiet_join tmp (ParseIP host) w2) as Hq2.
    destruct (joinMulticastGroupOnAtLeastOneInterface tmp (ParseIP host) w2)
      as [[e|] w3]; simpl in Hq2.
    { injection Hb as <- <-. split; [eapply quiet_trans; eauto|discriminate]. }
    destruct (conn_udp tmp); injection Hb as <- <-.
    + split; [eapply quiet_trans; eauto|]. now intros pc ip [= <- _].
    + split; [eapply quiet_trans; eauto|discriminate].
  - injection Ha as Ha. rewrite Ha in Hb. unfold bind at 1 in Hb.
    rewrite Hl in Hb.
    destruct (conn_udp tmp); injection Hb as <- <-.
    + split; [apply quiet_refl|]. now intros pc ip [= <- _].
    + split; [apply quiet_refl|discriminate].
Qed.

(** [newServerUDPListener] from the socket on (lines 151-166). *)
Lemma newServerUDPListener_from_socket (listenPacket : listenPacketFunc)
    (writeTimeout : Z) (multicast : bool) (address : string) (w w1 : OS)
    (pc : PacketConn) (ip : IP) :
  bind_socket listenPacket multicast address w = (Ret (pc, ip), w1) →
  newServerUDPListener (App := App) listenPacket writeTimeout multicast
    address w =
  match env_SetReadBuffer w1 pc udpKernelReadBufferSize with
  | Some e =>
      (Fail e,
       log_call (CallSetReadBuffer pc udpKernelReadBufferSize (Some e)) w1)
  | None =>
      let u := {| pc := pc; listenIP := ip; clients := ∅;
                  writeTimeout := writeTimeout |} in
      (Ret u,
       (go_run u
          (log_call (CallSetReadBuffer pc udpKernelReadBufferSize None) w1)).2)
  end.
Proof.
  intros Hb. unfold newServerUDPListener, bind at 1. rewrite Hb.
  unfold bind, SetReadBuffer.
  destruct (env_SetReadBuffer w1 pc udpKernelReadBufferSize);
    reflexivity.
Qed.

(** C9: on either path ([multicast] true or false), once the socket is
    there the constructor asks for a receive buffer of
    [udpKernelReadBufferSize] on it; when that fails the constructor returns
    this error and no listener, and the system is as after the failed call:
    no receive loop was started; a listener is returned only when it
    succeeded. *)
Theorem read_buffer_required (listenPacket : listenPacketFunc)
    (writeTimeout : Z) (multicast : bool) (address : string) (w w1 : OS)
    (pc : PacketConn) (ip : IP) :
  bind_socket listenPacket multicast address w = (Ret (pc, ip), w1) →
  let r := env_SetReadBuffer w1 pc udpKernelReadBufferSize in
  let out := newServerUDPListener (App := App) listenPacket writeTimeout
               multicast address w in
  (∃ l, os_log out.2
        = os_log w1 ++ CallSetReadBuffer pc udpKernelReadBufferSize r :: l) ∧
  (∀ e, r = Some e →
     out = (Fail e,
            log_call (CallSetReadBuffer pc udpKernelReadBufferSize (Some e))
              w1) ∧
     os_loops out.2 = os_loops w1 ∧
     (∀ p, CallGoRun p ∉ drop (length (os_log w1)) (os_log out.2))) ∧
  (r = None →
     out.1 = Ret {| pc := pc; listenIP := ip; clients := ∅;
                    writeTimeout := writeTimeout |} ∧
     conn_fd pc ∈ os_loops out.2) ∧
  (∀ u, out.1 = Ret u → r = None).
Proof.
  intros Hb r out. subst out.
  rewrite (newServerUDPListener_from_socket _ _ _ _ _ _ _ _ Hb).
  fold r. destruct r as [e|]; simpl.
  - split; [now exists []|]. split; [|split; [discriminate|discriminate]].
    intros e' [= <-]. split; [reflexivity|]. split; [reflexivity|].
    intros p. rewrite drop_app_length, list_elem_of_singleton. discriminate.
  - split; [exists [CallGoRun pc]; now rewrite <- app_assoc|].
    split; [discriminate|].
    split; [|reflexivity]. intros _. split; [reflexivity|]. set_solver.
Qed.

(** C10: when [listenPacket] has opened the socket [tmp], a failure of
    [SetMulticastTTL], of the multicast join or of [SetReadBuffer] makes the
    constructor return the error; and whenever the constructor then fails,
    no call closed [tmp]: the handle is still open after the return and no
    listener holds it. *)
Theorem failure_after_open_leaks (listenPacket : listenPacketFunc)
    (writeTimeout : Z) (multicast : bool) (address network addr : string)
    (tmp : PacketConn) (w w0 : OS) :
  listen_args multicast address = Some (network, addr) →
  listenPacket network addr w = (Ok tmp, w0) →
  conn_fd tmp ∈ os_open w0 →
  let out := newServerUDPListener (App := App) listenPacket writeTimeout
               multicast address w in
  (multicast = true → ∀ e,
     env_SetMulticastTTL w0 tmp multicastTTL = Some e →
     out.1 = Fail e) ∧
  (multicast = true → ∀ host port e,
     SplitHostPort address = Ok (host, port) →
     env_SetMulticastTTL w0 tmp multicastTTL = None →
     (joinMulticastGroupOnAtLeastOneInterface tmp (ParseIP host)
        (SetMulticastTTL tmp multicastTTL w0).2).1 = Some e →
     out.1 = Fail e) ∧
  (∀ pc ip w1 e,
     bind_socket listenPacket multicast address w = (Ret (pc, ip), w1) →
     env_SetReadBuffer w1 pc udpKernelReadBufferSize = Some e →
     pc = tmp ∧ out.1 = Fail e) ∧
  (∀ e, out.1 = Fail e →
     conn_fd tmp ∈ os_open out.2 ∧ os_open out.2 = os_open w0 ∧
     os_loops out.2 = os_loops w0 ∧
     ∃ l, os_log out.2 = os_log w0 ++ l ∧ CallClose tmp ∉ l).
Proof.
  intros Ha Hl Hopen out.
  destruct (bind_socket listenPacket multicast address w) as [rb wb] eqn:Hbs.
  destruct (bind_socket_after_open _ _ _ _ _ _ _ _ _ _ Ha Hl Hbs)
    as [Hq Hpc].
  split; [|split; [|split]].
  - intros -> e He. subst out.
    unfold newServerUDPListener, bind_socket, listen_args in *.
    destruct (SplitHostPort address) as [[host port]|err]; [|discriminate].
    injection Ha as Ha. rewrite Ha. unfold bind at 1 2. rewrite Hl.
    unfold bind at 1, SetMulticastTTL. rewrite He. reflexivity.
  - intros -> host port e Hs He Hj. subst out.
    unfold newServerUDPListener, bind_socket, listen_args in *.
    rewrite Hs in *. injection Ha as Ha. rewrite Ha.
    unfold bind at 1 2. rewrite Hl.
    unfold bind at 1. unfold SetMulticastTTL in *. rewrite He in *.
    simpl in Hj. unfold bind at 1.
    destruct (joinMulticastGroupOnAtLeastOneInterface tmp (ParseIP host) _)
      as [r w2].
    simpl in Hj. subst r. reflexivity.
  - intros pc ip w1 e Hb He. injection Hb as -> ->. subst out.
    rewrite (newServerUDPListener_from_socket _ _ _ _ _ _ _ _ Hbs), He.
    split; [|reflexivity]. now apply (Hpc pc ip).
  - intros e Hout. subst out.
    assert (Hquiet : quiet w0
              (newServerUDPListener (App := App) listenPacket writeTimeout
                 multicast address w).2).
    { unfold newServerUDPListener in Hout |- *.
      unfold bind at 1 in Hout. unfold bind at 1.
      rewrite Hbs in Hout |- *.
      destruct rb as [[pc ip]|e'|]; [|exact Hq|exact Hq].
      rename wb into w1. unfold bind at 1 in Hout. unfold bind at 1.
      pose proof (quiet_SetReadBuffer pc udpKernelReadBufferSize w1) as Hq1.
      destruct (SetReadBuffer pc udpKernelReadBufferSize w1) as [[e'|] w2];
        simpl in Hq1; [simpl; eapply quiet_trans; eauto|].
      discriminate Hout. }
    destruct Hquiet as (Ho & Hlp & l & Hg & Hn).
    split; [now rewrite Ho|]. split; [exact Ho|]. split; [exact Hlp|].
    exists l. split; [exact Hg|]. apply Hn.
Qed.

(** When the second construction of the pair fails, the first listener is
    closed before the error is returned: its handle is released and its
    receive loop has ended. *)
Lemma pair_closes_rtp (listenPacket : listenPacketFunc) (writeTimeout : Z)
    (multicastRTPPort multicastRTCPPort : Z) (ip : IP) (w w1 w2 : OS)
    (rtpl : serverUDPListener App) (e : error) :
  newServerUDPListener (App := App) listenPacket writeTimeout true
    (JoinHostPort (IP_String ip) (FormatInt multicastRTPPort 10)) w
    = (Ret rtpl, w1) →
  newServerUDPListener (App := App) listenPacket writeTimeout true
    (JoinHostPort (IP_String ip) (FormatInt multicastRTCPPort 10)) w1
    = (Fail e, w2) →
  let out := newServerUDPListenerMulticastPair (App := App) listenPacket
               writeTimeout multicastRTPPort multicastRTCPPort ip w in
  out.1 = Fail e ∧
  (conn_fd (pc rtpl) ∉ os_open out.2) ∧
  (conn_fd (pc rtpl) ∉ os_loops out.2) ∧
  os_log out.2 = os_log w2 ++ [CallClose (pc rtpl)].
Proof.
  intros H1 H2 out.
  assert (Hp : out = (Fail e, (close rtpl w2).2)).
  { subst out. unfold newServerUDPListenerMulticastPair, bind at 1.
    rewrite H1. unfold bind at 1. rewrite H2. reflexivity. }
  rewrite Hp. simpl.
  split; [reflexivity|].
  split; [intros [_ Hn]%elem_of_difference; apply Hn;
          now apply elem_of_singleton|].
  split; [intros [_ Hn]%elem_of_difference; apply Hn;
          now apply elem_of_singleton|].
  reflexivity.
Qed.

(** When the first construction of the pair fails, its error is returned
    and the second is not attempted. *)
Lemma pair_first_failure (listenPacket : listenPacketFunc) (writeTimeout : Z)
    (multicastRTPPort multicastRTCPPort : Z) (ip : IP) (w w1 : OS)
    (e : error) :
  newServerUDPListener (App := App) listenPacket writeTimeout true
    (JoinHostPort (IP_String ip) (FormatInt multicastRTPPort 10)) w
    = (Fail e, w1) →
  newServerUDPListenerMulticastPair (App := App) listenPacket writeTimeout
    multicastRTPPort multicastRTCPPort ip w = (Fail e, w1).
Proof.
  intros H1. unfold newServerUDPListenerMulticastPair, bind at 1.
  now rewrite H1.
Qed.

End Properties.

(** * Properties of the rest of the file *)

(** ** The format of a synchronization source *)

Section FindFormatProperties.

Context {serverSessionFormat : Type}.
Context (LastSSRC : serverSessionFormat → Z * bool).

Lemma find_format_None (entries : list (Z * serverSessionFormat)) (ssrc : Z) :
  serverFindFormatWithSSRC LastSSRC entries ssrc = None ↔
  ∀ k f, (k, f) ∈ entries → LastSSRC f ≠ (ssrc, true).
Proof.
  induction entries as [|[k0 f0] entries IH]; simpl.
  - split; [|reflexivity]. intros _ k f Hin. now apply elem_of_nil in Hin.
  - destruct (LastSSRC f0) as [tssrc ok] eqn:Hl.
    destruct ok; simpl.
    + destruct (Z.eqb_spec tssrc ssrc) as [->|Hne].
      * split; [discriminate|]. intros H. exfalso.
        apply (H k0 f0); [apply list_elem_of_here|exact Hl].
      * rewrite IH. split; intros H k f Hin.
        -- apply elem_of_cons in Hin as [[= -> ->]|Hin]; [|now apply (H k)].
           rewrite Hl. congruence.
        -- apply (H k). now apply list_elem_of_further.
    + rewrite IH. split; intros H k f Hin.
      * apply elem_of_cons in Hin as [[= -> ->]|Hin]; [|now apply (H k)].
        rewrite Hl. congruence.
      * apply (H k). now apply list_elem_of_further.
Qed.

Lemma find_format_Some (entries : list (Z * serverSessionFormat)) (ssrc : Z)
    (f : serverSessionFormat) :
  serverFindFormatWithSSRC LastSSRC entries ssrc = Some f →
  LastSSRC f = (ssrc, true) ∧ ∃ k, (k, f) ∈ entries.
Proof.
  induction entries as [|[k0 f0] entries IH]; simpl; [discriminate|].
  destruct (LastSSRC f0) as [tssrc ok] eqn:Hl.
  destruct ok; simpl.
  - destruct (Z.eqb_spec tssrc ssrc) as [->|Hne].
    + intros [= <-]. split; [exact Hl|]. exists k0. apply list_elem_of_here.
    + intros H. destruct (IH H) as [Hm [k Hk]]. split; [exact Hm|].
      exists k. now apply list_elem_of_further.
  - intros H. destruct (IH H) as [Hm [k Hk]]. split; [exact Hm|].
    exists k. now apply list_elem_of_further.
Qed.

Lemma range_order_elem (formats : gmap Z serverSessionFormat)
    (order : list (Z * serverSessionFormat)) (k : Z)
    (f : serverSessionFormat) :
  range_order formats order → ((k, f) ∈ order ↔ formats !! k = Some f).
Proof.
  unfold range_order. intros Hp. rewrite Hp. apply elem_of_map_to_list.
Qed.

(** X1: in whatever order the map is visited, the function returns [nil]
    exactly when no format of the map has its SSRC set and equal to [ssrc],
    and a format it returns is a format of the map whose SSRC is set and
    equal to [ssrc]. *)
Theorem find_format_spec (formats : gmap Z serverSessionFormat)
    (order : list (Z * serverSessionFormat)) (ssrc : Z) :
  range_order formats order →
  (serverFindFormatWithSSRC LastSSRC order ssrc = None ↔
     ∀ k f, formats !! k = Some f → LastSSRC f ≠ (ssrc, true)) ∧
  (∀ f, serverFindFormatWithSSRC LastSSRC order ssrc = Some f →
     LastSSRC f = (ssrc, true) ∧ ∃ k, formats !! k = Some f).
Proof.
  intros Ho. split.
  - rewrite find_format_None. split; intros H k f Hk; apply (H k).
    + now apply (range_order_elem formats order).
    + now apply (range_order_elem formats order) in Hk.
  - intros f Hf. destruct (find_format_Some _ _ _ Hf) as [Hm [k Hk]].
    split; [exact Hm|]. exists k.
    now apply (range_order_elem formats order) in Hk.
Qed.

(** X2: when at most one format of the map has its SSRC set and equal to
    [ssrc], the result does not depend on the order in which the map is
    visited. *)
Theorem find_format_order_independent (formats : gmap Z serverSessionFormat)
    (order1 order2 : list (Z * serverSessionFormat)) (ssrc : Z) :
  range_order formats order1 → range_order formats order2 →
  (∀ k1 k2 f1 f2,
     formats !! k1 = Some f1 → formats !! k2 = Some f2 →
     LastSSRC f1 = (ssrc, true) → LastSSRC f2 = (ssrc, true) → f1 = f2) →
  serverFindFormatWithSSRC LastSSRC order1 ssrc
  = serverFindFormatWithSSRC LastSSRC order2 ssrc.
Proof.
  intros Ho1 Ho2 Huniq.
  destruct (serverFindFormatWithSSRC LastSSRC order1 ssrc) as [f1|] eqn:H1.
  - destruct (find_format_Some _ _ _ H1) as [Hm1 [k1 Hk1]].
    apply (range_order_elem formats order1) in Hk1; [|exact Ho1].
    destruct (serverFindFormatWithSSRC LastSSRC order2 ssrc) as [f2|] eqn:H2.
    + destruct (find_format_Some _ _ _ H2) as [Hm2 [k2 Hk2]].
      apply (range_order_elem formats order2) in Hk2; [|exact Ho2].
      f_equal. exact (Huniq k1 k2 f1 f2 Hk1 Hk2 Hm1 Hm2).
    + exfalso. rewrite find_format_None in H2. apply (H2 k1 f1); [|exact Hm1].
      now apply (range_order_elem formats order2).
  - symmetry. rewrite find_format_None in H1 |- *.
    intros k f Hk. apply (H1 k).
    apply (range_order_elem formats order2) in Hk; [|exact Ho2].
    now apply (range_order_elem formats order1).
Qed.

End FindFormatProperties.

(** ** More on the key, the registry and the receive loop *)

Section MoreProperties.

Context {App : Type} {plat : Platform} {env : Env}.

(** X3: an address whose length is not 4 is copied over the zero value: the
    key holds its first 16 bytes, padded with zero bytes when it is shorter
    (all zero for a [nil] address) and cut when it is longer. *)
Theorem clientAddr_of_other_length (rawIP : IP) (p : Z) :
  length rawIP ≠ 4%nat →
  clientAddr_of rawIP p
  = ClientAddr (take 16 rawIP ++ replicate (16 - length rawIP) x00) p ∧
  wf_clientAddr (clientAddr_of rawIP p).
Proof.
  intros Hlen. unfold clientAddr_of.
  pose proof (fill_ip_other clientAddr_zero rawIP p Hlen) as Hi.
  pose proof (fill_port clientAddr_zero rawIP p) as Hp.
  pose proof (fill_wf clientAddr_zero rawIP p clientAddr_zero_wf) as Hw.
  split; [|exact Hw].
  destruct (fill clientAddr_zero rawIP p) as [a q].
  cbn [ca_ip ca_port] in Hi, Hp. subst q.
  f_equal. rewrite Hi. unfold go_copy, clientAddr_zero. cbn [ca_ip].
  unfold IPv6len. rewrite length_replicate, drop_replicate. reflexivity.
Qed.

(** The two forms of an IPv4 address have the key of the mapped form. *)
Lemma clientAddr_of_either (a rawIP : IP) (p : Z) :
  length a = IPv4len → rawIP = a ∨ rawIP = v4InV6Prefix ++ a →
  clientAddr_of rawIP p = ClientAddr (v4InV6Prefix ++ a) p.
Proof.
  intros Ha [->| ->].
  - now apply clientAddr_of_v4.
  - apply clientAddr_of_v6. rewrite length_app, Ha. reflexivity.
Qed.

(** X4: two [addClient] for different keys can be swapped, an [addClient]
    and a [removeClient] for different keys can be swapped, and a second
    [removeClient] for a key changes nothing. *)
Theorem registry_commute (u : serverUDPListener App) (ip1 ip2 : IP)
    (p1 p2 : Z) (cb1 cb2 : readFunc App) :
  clientAddr_of ip1 p1 ≠ clientAddr_of ip2 p2 →
  addClient (addClient u ip1 p1 cb1) ip2 p2 cb2
  = addClient (addClient u ip2 p2 cb2) ip1 p1 cb1 ∧
  removeClient (addClient u ip1 p1 cb1) ip2 p2
  = addClient (removeClient u ip2 p2) ip1 p1 cb1 ∧
  removeClient (removeClient u ip1 p1) ip2 p2
  = removeClient (removeClient u ip2 p2) ip1 p1 ∧
  removeClient (removeClient u ip1 p1) ip1 p1 = removeClient u ip1 p1.
Proof.
  unfold clientAddr_of. intros Hne. unfold addClient, removeClient. simpl.
  rewrite !set_clients_twice.
  split; [f_equal; now apply insert_insert_ne|].
  split; [f_equal; now apply delete_insert_ne|].
  split; [f_equal; apply delete_delete|].
  f_equal. apply delete_delete_eq.
Qed.

Lemma take_min_length {A} (N : nat) (l : list A) :
  take (Nat.min (length l) N) l = take N l.
Proof.
  destruct (Nat.le_gt_cases (length l) N) as [H|H].
  - rewrite Nat.min_l by exact H. now rewrite !take_ge by lia.
  - rewrite Nat.min_r by lia. reflexivity.
Qed.

(** One iteration on a datagram, in terms of [delivered]. *)
Lemma run_iter_delivered (d : datagram) (s : sys App) :
  let s' := run_iter (ReadDatagram d) s in
  lookups s' = S (lookups s) ∧
  match delivered (clients (lst s)) d with
  | Some c => app s' = c.1 c.2 (app s) ∧ calls s' = calls s ++ [c]
  | None => app s' = app s ∧ calls s' = calls s
  end.
Proof.
  unfold run_iter. rewrite ReadFromUDP_fresh.
  unfold dispatch, delivered, clientAddr_of. simpl.
  rewrite take_read_buffer, take_min_length.
  destruct (clients (lst s) !! _); simpl; repeat split.
Qed.

Lemma run_datagrams_delivered (ds : list datagram) (s : sys App) :
  let s' := run (ReadDatagram <$> ds) s in
  let cs := omap (delivered (clients (lst s))) ds in
  calls s' = calls s ++ cs ∧
  app s' = foldl (λ a c, c.1 c.2 a) (app s) cs ∧
  lookups s' = (lookups s + length ds)%nat ∧
  lst s' = lst s ∧ loop s' = loop s ∧ done_fired s' = done_fired s.
Proof.
  revert s. induction ds as [|d ds IH]; intros s;
    cbn [fmap list_fmap run omap list_omap].
  - rewrite app_nil_r, Nat.add_0_r. repeat split.
  - destruct (run_iter_frame d s) as (Hl & _ & Hd & Hlp & _).
    destruct (run_iter_delivered d s) as (Hk & Hc).
    destruct (IH (run_iter (ReadDatagram d) s))
      as (IH1 & IH2 & IH3 & IH4 & IH5 & IH6).
    rewrite Hl in IH1, IH2.
    split; [|split; [|split; [|split; [|split]]]].
    + rewrite IH1. destruct (delivered (clients (lst s)) d) as [c|].
      * destruct Hc as [_ ->]. now rewrite <- app_assoc.
      * destruct Hc as [_ ->]. reflexivity.
    + rewrite IH2. destruct (delivered (clients (lst s)) d) as [c|].
      * destruct Hc as [-> _]. reflexivity.
      * destruct Hc as [-> _]. reflexivity.
    + rewrite IH3, Hk. simpl. lia.
    + congruence.
    + congruence.
    + congruence.
Qed.

Lemma run_app_datagrams (ds : list datagram) (reads : list read_outcome)
    (s : sys App) :
  run ((ReadDatagram <$> ds) ++ reads) s
  = run reads (run (ReadDatagram <$> ds) s).
Proof.
  revert s. induction ds as [|d ds IH]; intros s; [reflexivity|].
  cbn [fmap list_fmap app run]. apply IH.
Qed.

(** X5: against a fixed registry, [run] dispatches the datagrams in the
    order the socket delivers them, each to the handler of its sender and
    truncated to [udpMaxPayloadSize + 1] bytes, dropping those of senders
    without handler, with one lookup per datagram; the first read error ends
    it there, whatever the socket would have answered afterwards. *)
Theorem run_in_order (ds : list datagram) (s : sys App) :
  let cs := omap (delivered (clients (lst s))) ds in
  (let s' := run (ReadDatagram <$> ds) s in
   calls s' = calls s ++ cs ∧
   app s' = foldl (λ a c, c.1 c.2 a) (app s) cs ∧
   lookups s' = (lookups s + length ds)%nat ∧
   lst s' = lst s ∧ loop s' = loop s) ∧
  (∀ err rest,
     let s' := run ((ReadDatagram <$> ds) ++ ReadError err :: rest) s in
     calls s' = calls s ++ cs ∧
     app s' = foldl (λ a c, c.1 c.2 a) (app s) cs ∧
     lookups s' = (lookups s + length ds)%nat ∧
     loop s' = Exited ∧ done_fired s' = S (done_fired s)).
Proof.
  intros cs.
  destruct (run_datagrams_delivered ds s) as (H1 & H2 & H3 & H4 & H5 & H6).
  split; [repeat split; assumption|].
  intros err rest. rewrite run_app_datagrams. simpl.
  repeat split; try assumption. now rewrite H6.
Qed.

(** X6: a datagram from a sender with a handler is handed over whole when it
    has at most [udpMaxPayloadSize + 1] bytes; a longer one is not rejected:
    the handler is called with its first [udpMaxPayloadSize + 1] bytes. *)
Theorem payload_bounds (s : sys App) (d : datagram) (cb : readFunc App) :
  loop s = AtRead → sock_closed s = false →
  clients (lst s)
    !! clientAddr_of (addr_IP (dg_from d)) (addr_Port (dg_from d)) = Some cb →
  ∃ s' payload,
    step (EvRead (ReadDatagram d)) s = Some s' ∧
    calls s' = calls s ++ [(cb, payload)] ∧
    payload = take (udpMaxPayloadSize + 1)%nat (dg_data d) ∧
    (length payload ≤ udpMaxPayloadSize + 1)%nat ∧
    ((length (dg_data d) ≤ udpMaxPayloadSize + 1)%nat →
       payload = dg_data d) ∧
    ((udpMaxPayloadSize + 1 < length (dg_data d))%nat →
       length payload = (udpMaxPayloadSize + 1)%nat ∧ payload ≠ dg_data d).
Proof.
  intros Hl Hs Hk.
  exists (run_iter (ReadDatagram d) s),
         (take (udpMaxPayloadSize + 1)%nat (dg_data d)).
  split.
  { simpl. rewrite decide_True by exact Hl. now rewrite Hs. }
  split.
  { destruct (run_iter_delivered d s) as [_ Hc].
    unfold delivered in Hc. rewrite Hk in Hc. simpl in Hc. apply Hc. }
  split; [reflexivity|]. rewrite length_take.
  split; [lia|]. split.
  - intros Hle. now apply take_ge.
  - intros Hlt. split; [lia|]. intros Heq.
    apply (f_equal length) in Heq. rewrite length_take in Heq. lia.
Qed.

Lemma step_read_datagram (s : sys App) (d : datagram) :
  loop s = AtRead → sock_closed s = false →
  step (EvRead (ReadDatagram d)) s = Some (run_iter (ReadDatagram d) s).
Proof.
  intros Hl Hs. simpl. rewrite decide_True by exact Hl. now rewrite Hs.
Qed.

(** X7: a client registered under an IPv4 address in either form (4 bytes
    or the 16 bytes of the IPv4-in-IPv6-mapped form) gets the datagrams whose
    sender the socket reports in either form. *)
Theorem dispatch_across_forms (s : sys App) (a rip sip : IP) (p : Z)
    (cb : readFunc App) (d : datagram) :
  loop s = AtRead → sock_closed s = false →
  length a = 4%nat →
  rip = a ∨ rip = v4InV6Prefix ++ a →
  sip = a ∨ sip = v4InV6Prefix ++ a →
  addr_IP (dg_from d) = sip → addr_Port (dg_from d) = p →
  ∃ s', steps [EvAddClient rip p cb; EvRead (ReadDatagram d)] s = Some s' ∧
    calls s'
    = calls s ++ [(cb, take (udpMaxPayloadSize + 1)%nat (dg_data d))] ∧
    app s' = cb (take (udpMaxPayloadSize + 1)%nat (dg_data d)) (app s).
Proof.
  intros Hl Hs Ha Hr Hsi Hip Hp.
  set (s1 := set_lst (addClient (lst s) rip p cb) s).
  exists (run_iter (ReadDatagram d) s1).
  split.
  { cbn [steps]. change (step (EvAddClient rip p cb) s) with (Some s1).
    cbn iota. rewrite step_read_datagram by assumption. reflexivity. }
  destruct (run_iter_delivered d s1) as [_ Hc].
  unfold delivered in Hc. rewrite Hip, Hp in Hc.
  assert (Hk : clients (lst s1) !! clientAddr_of sip p = Some cb).
  { unfold s1, addClient. simpl. fold (clientAddr_of rip p).
    rewrite (clientAddr_of_either a rip p Ha Hr).
    rewrite (clientAddr_of_either a sip p Ha Hsi).
    apply lookup_insert_eq. }
  rewrite Hk in Hc. simpl in Hc. destruct Hc as [Hap Hca].
  split; [exact Hca|exact Hap].
Qed.

(** X8: after [removeClient] for an IPv4 address in either form, a datagram
    from that address and port, reported in either form, calls no handler
    and changes nothing for the collaborators. *)
Theorem remove_stops_dispatch (s : sys App) (a rip sip : IP) (p : Z)
    (d : datagram) :
  loop s = AtRead → sock_closed s = false →
  length a = 4%nat →
  rip = a ∨ rip = v4InV6Prefix ++ a →
  sip = a ∨ sip = v4InV6Prefix ++ a →
  addr_IP (dg_from d) = sip → addr_Port (dg_from d) = p →
  ∃ s', steps [EvRemoveClient rip p; EvRead (ReadDatagram d)] s = Some s' ∧
    calls s' = calls s ∧ app s' = app s ∧
    clients (lst s') !! clientAddr_of sip p = None.
Proof.
  intros Hl Hs Ha Hr Hsi Hip Hp.
  set (s1 := set_lst (removeClient (lst s) rip p) s).
  exists (run_iter (ReadDatagram d) s1).
  split.
  { cbn [steps]. change (step (EvRemoveClient rip p) s) with (Some s1).
    cbn iota. rewrite step_read_datagram by assumption. reflexivity. }
  destruct (run_iter_delivered d s1) as [_ Hc].
  destruct (run_iter_frame d s1) as (Hlst & _).
  unfold delivered in Hc. rewrite Hip, Hp in Hc.
  assert (Hk : clients (lst s1) !! clientAddr_of sip p = None).
  { unfold s1, removeClient. simpl. fold (clientAddr_of rip p).
    rewrite (clientAddr_of_either a rip p Ha Hr).
    rewrite (clientAddr_of_either a sip p Ha Hsi).
    apply lookup_delete_eq. }
  rewrite Hk in Hc. simpl in Hc. destruct Hc as [Hap Hca].
  split; [exact Hca|]. split; [exact Hap|]. now rewrite Hlst.
Qed.

(** ** More on the running system *)

Ltac step_inv He :=
  match type of He with
  | step ?e ?s = Some ?s' =>
      destruct e as [[d|err]| |ip0 port0 cb0|ip0 port0| |];
      unfold step in He; repeat case_decide; try discriminate;
      try match type of He with
          | context [if sock_closed s then _ else _] =>
              destruct (sock_closed s) eqn:Hsock; try discriminate
          end;
      apply (inj Some) in He; subst s'
  end.

Lemma addClient_wf (u : serverUDPListener App) (rawIP : IP) (p : Z)
    (cb : readFunc App) :
  registry_wf u → registry_wf (addClient u rawIP p cb).
Proof.
  intros Hu k cb'. unfold addClient. simpl.
  rewrite lookup_insert. case_decide as Hk.
  - intros _. subst k. apply fill_wf, clientAddr_zero_wf.
  - apply Hu.
Qed.

Lemma removeClient_wf (u : serverUDPListener App) (rawIP : IP) (p : Z) :
  registry_wf u → registry_wf (removeClient u rawIP p).
Proof.
  intros Hu k cb'. unfold removeClient. simpl.
  rewrite lookup_delete_Some. intros [_ Hk]. now apply (Hu k cb').
Qed.

Lemma step_registry_wf (e : event App) (s s' : sys App) :
  registry_wf (lst s) → step e s = Some s' → registry_wf (lst s').
Proof.
  intros Hw He.
  step_inv He;
    [destruct (run_iter_frame d s) as (-> & _); exact Hw|..];
    simpl; try assumption.
  - now apply addClient_wf.
  - now apply removeClient_wf.
Qed.

(** X9: whatever addresses [addClient] and [removeClient] are called with,
    of whatever length, and whatever the loop receives, every key of the
    registry of a running listener has a 16-byte address. *)
Theorem registry_keys_wf (u : serverUDPListener App) (a : App)
    (s : sys App) :
  registry_wf u → reachable u a s →
  ∀ k cb, clients (lst s) !! k = Some cb → length (ca_ip k) = 16%nat.
Proof.
  intros Hu [es Hes].
  assert (Hw : registry_wf (lst (sys_init u a))) by exact Hu.
  revert Hw Hes. generalize (sys_init u a). clear Hu.
  induction es as [|e es IH]; simpl; intros s0 Hw Hes.
  - injection Hes as <-. exact Hw.
  - destruct (step e s0) as [s1|] eqn:He; [|discriminate].
    apply (IH s1); [|exact Hes]. eapply step_registry_wf; eauto.
Qed.







(** ** More on the multicast join and on construction *)



(** The join, by what [net.Interfaces()] answers. *)
Lemma join_result (p : PacketConn) (group : IP) (w : OS) :
  match env_Interfaces w with
  | Err e =>
      joinMulticastGroupOnAtLeastOneInterface p group w
      = (Some e, log_call CallInterfaces w)
  | Ok intfs =>
      ∃ attempts : list (Interface * option error),
        attempts.*1 = filter multicast_capable intfs ∧
        os_log (joinMulticastGroupOnAtLeastOneInterface p group w).2
          = os_log w ++ CallInterfaces :: join_calls p group attempts ∧
        ((joinMulticastGroupOnAtLeastOneInterface p group w).1 = None →
           ∃ a, a ∈ attempts ∧ joined a)
  end.
Proof.
  unfold joinMulticastGroupOnAtLeastOneInterface, bind, net_Interfaces.
  destruct (env_Interfaces w) as [intfs|e]; [|reflexivity].
  destruct (join_interfaces_spec p group intfs false
              (log_call CallInterfaces w))
    as (attempts & Hf & _ & _ & Hg & Hs).
  exists attempts.
  destruct (join_interfaces p group intfs false (log_call CallInterfaces w))
    as [success w1].
  simpl in *. split; [exact Hf|]. split.
  - destruct success; simpl; rewrite Hg, <- app_assoc; reflexivity.
  - destruct success; simpl; [|discriminate].
    intros _. destruct Hs as [Hs _]. destruct (Hs eq_refl) as [H|H];
      [discriminate|exact H].
Qed.

(** X12: on the multicast path, when [net.Interfaces()] fails after the
    socket was opened and its TTL set, the constructor returns that error
    (not the one of the join), no join is attempted, and the system is as
    after that call: the socket is still open. *)
Theorem interfaces_error_propagates (listenPacket : listenPacketFunc)
    (writeTimeout : Z) (address network addr : string) (tmp : PacketConn)
    (w w0 : OS) (e : error) :
  listen_args true address = Some (network, addr) →
  listenPacket network addr w = (Ok tmp, w0) →
  env_SetMulticastTTL w0 tmp multicastTTL = None →
  env_Interfaces (log_call (CallSetMulticastTTL tmp multicastTTL None) w0)
    = Err e →
  newServerUDPListener (App := App) listenPacket writeTimeout true address w
  = (Fail e,
     log_call CallInterfaces
       (log_call (CallSetMulticastTTL tmp multicastTTL None) w0)).
Proof.
  unfold listen_args. intros Ha Hl Ht Hi.
  unfold newServerUDPListener, bind_socket.
  destruct (SplitHostPort address) as [[host port]|err]; [|discriminate].
  injection Ha as Ha. rewrite Ha. unfold bind at 1 2. rewrite Hl.
  unfold bind at 1. unfold SetMulticastTTL. rewrite Ht.
  unfold bind at 1.
  pose proof (join_result tmp (ParseIP host)
                (log_call (CallSetMulticastTTL tmp multicastTTL None) w0))
    as Hj.
  rewrite Hi in Hj. rewrite Hj. reflexivity.
Qed.

(** X13: before there is a socket the constructor has done nothing: an
    address that does not split (multicast path) is answered with the error
    and no call at all, and an error of [listenPacket] is returned with the
    system as [listenPacket] left it. *)
Theorem failure_before_socket (listenPacket : listenPacketFunc)
    (writeTimeout : Z) (multicast : bool) (address : string) (w : OS) :
  (∀ e, multicast = true → SplitHostPort address = Err e →
     newServerUDPListener (App := App) listenPacket writeTimeout multicast
       address w = (Fail e, w)) ∧
  (∀ network addr e w0,
     listen_args multicast address = Some (network, addr) →
     listenPacket network addr w = (Err e, w0) →
     newServerUDPListener (App := App) listenPacket writeTimeout multicast
       address w = (Fail e, w0)).
Proof.
  split.
  - intros e -> He. unfold newServerUDPListener, bind_socket.
    rewrite He. reflexivity.
  - intros network addr e w0 Ha Hl.
    unfold listen_args in Ha. unfold newServerUDPListener, bind_socket.
    destruct multicast.
    + destruct (SplitHostPort address) as [[host port]|err]; [|discriminate].
      injection Ha as Ha. rewrite Ha. unfold bind at 1 2. rewrite Hl.
      reflexivity.
    + injection Ha as Ha. rewrite Ha. unfold bind at 1 2. rewrite Hl.
      reflexivity.
Qed.

(** X14: a unicast listener: with the socket opened and its receive buffer
    set, the constructor returns a listener on that socket whose address
    ([ip]) is the IP of the socket's local address and whose registry is
    empty; it makes no multicast call, and its only calls after
    [listenPacket] are [SetReadBuffer] and the start of the one receive
    loop. *)
Theorem new_unicast_listener (listenPacket : listenPacketFunc)
    (timeout : Z) (address network addr : string) (tmp : PacketConn)
    (w w0 : OS) :
  restrictNetwork "udp" address = (network, addr) →
  listenPacket network addr w = (Ok tmp, w0) →
  conn_udp tmp = true →
  env_SetReadBuffer w0 tmp udpKernelReadBufferSize = None →
  ∃ u w',
    newServerUDPListener (App := App) listenPacket timeout false
      address w = (Ret u, w') ∧
    pc u = tmp ∧ ip u = addr_IP (env_LocalAddr w0 tmp) ∧
    clients u = ∅ ∧ writeTimeout u = timeout ∧
    os_open w' = os_open w0 ∧
    os_loops w' = os_loops w0 ∪ {[conn_fd tmp]} ∧
    os_log w' = os_log w0 ++
      [CallSetReadBuffer tmp udpKernelReadBufferSize None; CallGoRun tmp].
Proof.
  intros Hr Hl Hu Hb.
  eexists _, _. split.
  { unfold newServerUDPListener, bind_socket. rewrite Hr.
    unfold bind at 1 2. rewrite Hl, Hu. unfold bind at 1 2, LocalAddr.
    simpl. unfold bind at 1, SetReadBuffer. rewrite Hb. reflexivity. }
  simpl. repeat split. now rewrite <- app_assoc.
Qed.

Lemma bind_socket_multicast_ret (listenPacket : listenPacketFunc)
    (address network addr : string) (tmp pc0 : PacketConn) (ip0 : IP)
    (w w0 wb : OS) :
  listen_args true address = Some (network, addr) →
  listenPacket network addr w = (Ok tmp, w0) →
  bind_socket listenPacket true address w = (Ret (pc0, ip0), wb) →
  ∃ host port intfs attempts,
    SplitHostPort address = Ok (host, port) ∧ pc0 = tmp ∧
    conn_udp tmp = true ∧ ip0 = ParseIP host ∧
    env_SetMulticastTTL w0 tmp multicastTTL = None ∧
    env_Interfaces (log_call (CallSetMulticastTTL tmp multicastTTL None) w0)
      = Ok intfs ∧
    attempts.*1 = filter multicast_capable intfs ∧
    (∃ a, a ∈ attempts ∧ joined a) ∧
    os_log wb = os_log w0 ++
      [CallSetMulticastTTL tmp multicastTTL None; CallInterfaces] ++
      join_calls tmp (ParseIP host) attempts.
Proof.
  unfold listen_args, bind_socket. intros Ha Hl Hb.
  destruct (SplitHostPort address) as [[host port]|err]; [|discriminate].
  injection Ha as Ha. rewrite Ha in Hb. unfold bind at 1 in Hb.
  rewrite Hl in Hb. unfold bind at 1, SetMulticastTTL in Hb.
  destruct (env_SetMulticastTTL w0 tmp multicastTTL) as [e|] eqn:Ht;
    [discriminate|].
  unfold bind at 1 in Hb.
  pose proof (join_result tmp (ParseIP host)
                (log_call (CallSetMulticastTTL tmp multicastTTL None) w0))
    as Hj.
  destruct (env_Interfaces
              (log_call (CallSetMulticastTTL tmp multicastTTL None) w0))
    as [intfs|e] eqn:Hi.
  2: { rewrite Hj in Hb. discriminate. }
  destruct Hj as (attempts & Hf & Hg & Hs).
  destruct (joinMulticastGroupOnAtLeastOneInterface tmp (ParseIP host)
              (log_call (CallSetMulticastTTL tmp multicastTTL None) w0))
    as [[e|] w2]; [discriminate|].
  simpl in Hg, Hs.
  destruct (conn_udp tmp) eqn:Hu; [|discriminate].
  injection Hb as <- <- <-.
  exists host, port, intfs, attempts.
  split; [reflexivity|]. split; [reflexivity|]. split; [reflexivity|].
  split; [reflexivity|]. split; [reflexivity|]. split; [reflexivity|].
  split; [exact Hf|]. split; [now apply Hs|].
  rewrite Hg. simpl. rewrite <- app_assoc. reflexivity.
Qed.

(** X15: a multicast listener: whenever the constructor returns a listener
    on the multicast path, the address split into host and port, the socket
    is a UDP socket, its multicast TTL was set, then the interfaces were
    listed and the group joined on the multicast-capable ones, at least once
    with success, then the receive buffer was set and the one receive loop
    started, in this order and with no other call; the listener's address
    ([ip]) is the parsed host, the group itself, and its registry is
    empty. *)
Theorem new_multicast_listener (listenPacket : listenPacketFunc)
    (timeout : Z) (address network addr : string) (tmp : PacketConn)
    (w w0 w' : OS) (u : serverUDPListener App) :
  listen_args true address = Some (network, addr) →
  listenPacket network addr w = (Ok tmp, w0) →
  newServerUDPListener (App := App) listenPacket timeout true address w
    = (Ret u, w') →
  ∃ host port intfs attempts,
    SplitHostPort address = Ok (host, port) ∧
    pc u = tmp ∧ conn_udp tmp = true ∧ ip u = ParseIP host ∧
    clients u = ∅ ∧ writeTimeout u = timeout ∧
    env_Interfaces (log_call (CallSetMulticastTTL tmp multicastTTL None) w0)
      = Ok intfs ∧
    attempts.*1 = filter multicast_capable intfs ∧
    (∃ a, a ∈ attempts ∧ joined a) ∧
    os_log w' = os_log w0 ++
      [CallSetMulticastTTL tmp multicastTTL None; CallInterfaces] ++
      join_calls tmp (ParseIP host) attempts ++
      [CallSetReadBuffer tmp udpKernelReadBufferSize None; CallGoRun tmp] ∧
    os_open w' = os_open w0 ∧
    os_loops w' = os_loops w0 ∪ {[conn_fd tmp]}.
Proof.
  intros Ha Hl Hn.
  destruct (bind_socket listenPacket true address w) as [rb wb] eqn:Hbs.
  destruct (bind_socket_after_open _ _ _ _ _ _ _ _ _ _ Ha Hl Hbs)
    as [(Ho & Hlp & _) _].
  destruct rb as [[pc0 ip0]|e|].
  - rewrite (newServerUDPListener_from_socket _ _ _ _ _ _ _ _ Hbs) in Hn.
    destruct (env_SetReadBuffer wb pc0 udpKernelReadBufferSize) as [e|];
      [discriminate|].
    injection Hn as <- <-.
    destruct (bind_socket_multicast_ret _ _ _ _ _ _ _ _ _ _ Ha Hl Hbs)
      as (host & port & intfs & attempts & Hs & -> & Hu & -> & _ & Hi & Hf
          & Hj & Hg).
    exists host, port, intfs, attempts. simpl.
    split; [exact Hs|]. split; [reflexivity|]. split; [exact Hu|].
    split; [reflexivity|]. split; [reflexivity|]. split; [reflexivity|].
    split; [exact Hi|]. split; [exact Hf|]. split; [exact Hj|].
    split; [|split; [exact Ho|now rewrite Hlp]].
    rewrite Hg. rewrite <- !app_assoc. reflexivity.
  - exfalso. unfold newServerUDPListener, bind at 1 in Hn.
    rewrite Hbs in Hn. discriminate.
  - exfalso. unfold newServerUDPListener, bind at 1 in Hn.
    rewrite Hbs in Hn. discriminate.
Qed.

(** X16: a [listenPacket] that returns a socket that is not a UDP socket
    never yields a listener (the type assertion panics, unless an earlier
    step failed with its error), no receive loop is started, and on the
    unicast path the panic comes right after [listenPacket]. *)
Theorem non_udp_conn_no_listener (listenPacket : listenPacketFunc)
    (timeout : Z) (multicast : bool) (address network addr : string)
    (tmp : PacketConn) (w w0 : OS) :
  listen_args multicast address = Some (network, addr) →
  listenPacket network addr w = (Ok tmp, w0) →
  conn_udp tmp = false →
  let out := newServerUDPListener (App := App) listenPacket timeout
               multicast address w in
  (∀ u, out.1 ≠ Ret u) ∧
  os_loops out.2 = os_loops w0 ∧ os_open out.2 = os_open w0 ∧
  (multicast = false → out = (Panic, w0)) ∧
  (multicast = true → out.1 = Panic ∨ ∃ e, out.1 = Fail e).
Proof.
  intros Ha Hl Hu out.
  destruct (bind_socket listenPacket multicast address w) as [rb wb] eqn:Hbs.
  destruct (bind_socket_after_open _ _ _ _ _ _ _ _ _ _ Ha Hl Hbs)
    as [(Ho & Hlp & _) _].
  assert (Hrb : (rb = Panic ∨ ∃ e, rb = Fail e) ∧
                (multicast = false → rb = Panic ∧ wb = w0)).
  { clear Ho Hlp. unfold listen_args, bind_socket in *.
    destruct multicast; simpl in Ha.
    - split; [|discriminate].
      destruct (SplitHostPort address) as [[host port]|err]; [|discriminate].
      injection Ha as Ha. rewrite Ha in Hbs. unfold bind at 1 in Hbs.
      rewrite Hl in Hbs. unfold bind at 1 in Hbs.
      destruct (SetMulticastTTL tmp multicastTTL w0) as [[e|] w1].
      { injection Hbs as <- <-. right. now exists e. }
      unfold bind at 1 in Hbs.
      destruct (joinMulticastGroupOnAtLeastOneInterface tmp (ParseIP host)
                  w1) as [[e|] w2].
      { injection Hbs as <- <-. right. now exists e. }
      rewrite Hu in Hbs. injection Hbs as <- <-. now left.
    - injection Ha as Ha. rewrite Ha in Hbs. unfold bind at 1 in Hbs.
      rewrite Hl, Hu in Hbs. injection Hbs as <- <-.
      split; [now left|]. intros _. split; reflexivity. }
  assert (Hout : out = (match rb with
                        | Ret _ => Panic
                        | Fail e => Fail e
                        | Panic => Panic
                        end, wb)).
  { subst out. unfold newServerUDPListener, bind at 1. rewrite Hbs.
    destruct Hrb as [[->|[e ->]] _]; reflexivity. }
  rewrite Hout. simpl.
  destruct Hrb as [Hcase Huni].
  split; [|split; [exact Hlp|split; [exact Ho|split]]].
  - intros u. destruct Hcase as [->|[e ->]]; discriminate.
  - intros Hm. destruct (Huni Hm) as [-> ->]. reflexivity.
  - intros _. destruct Hcase as [->|[e ->]]; [now left|right; now exists e].
Qed.


End MoreProperties.

(* EXTRAS *)

(** * Witnesses and counterexamples *)

(** "ping" from the registered 127.0.0.1:5000 reaches the handler, all four
    bytes of it and nothing else of the buffer; from 127.0.0.1:5001 it is
    dropped. *)
Lemma run_iter_dispatch_witness :
  (∃ s', step (plat := test_platform) (EvRead (ReadDatagram (test_ping 5000)))
           (sys_init test_listener 0%nat) = Some s' ∧
         app s' = 4%nat ∧
         calls s' = [(test_handler, [x70; x69; x6e; x67])]) ∧
  (∃ s', step (plat := test_platform) (EvRead (ReadDatagram (test_ping 5001)))
           (sys_init test_listener 0%nat) = Some s' ∧
         app s' = 0%nat ∧ calls s' = [] ∧ loop s' = AtRead).
Proof.
  split.
  - destruct (run_iter_dispatch (plat := test_platform)
                (sys_init test_listener 0%nat) (test_ping 5000) 4
                (test_peer 5000)
                (go_copy (replicate 1473 x00) (dg_data (test_ping 5000)))
                eq_refl eq_refl eq_refl)
      as (s' & Hs & _ & _ & _ & _ & _ & _ & _ & _ & _ & _ & _ & Hm).
    exists s'. split; [exact Hs|]. vm_compute in Hm. exact Hm.
  - destruct (run_iter_dispatch (plat := test_platform)
                (sys_init test_listener 0%nat) (test_ping 5001) 4
                (test_peer 5001)
                (go_copy (replicate 1473 x00) (dg_data (test_ping 5001)))
                eq_refl eq_refl eq_refl)
      as (s' & Hs & _ & _ & _ & _ & _ & _ & _ & _ & Hl & _ & _ & Hm).
    exists s'. split; [exact Hs|]. vm_compute in Hm.
    destruct Hm as [Ha Hc]. repeat split; assumption.
Defined.

(** The run [test_events] ends with [close] returned; nothing is dispatched
    after it. *)
Lemma close_rendezvous_witness :
  reachable (plat := test_platform) test_listener 0%nat test_final ∧
  closer test_final = Returned ∧ sock_closed test_final = true ∧
  done_fired test_final = 1%nat ∧ loop test_final = Exited ∧
  (∀ es s', steps (plat := test_platform) es test_final = Some s' →
     lookups s' = 1%nat ∧ calls s' = [(test_handler, [x70; x69; x6e; x67])]).
Proof.
  assert (Hr : reachable (plat := test_platform) test_listener 0%nat
                 test_final).
  { exists test_events. vm_compute. reflexivity. }
  assert (Hc : closer test_final = Returned) by (vm_compute; reflexivity).
  destruct (close_rendezvous (plat := test_platform) test_listener 0%nat
              test_final Hr) as (_ & _ & _ & H4 & H5).
  destruct (H4 Hc) as (Hs & Hd & Hl).
  split; [exact Hr|]. split; [exact Hc|]. split; [exact Hs|].
  split; [exact Hd|]. split; [exact Hl|].
  intros es s' Hes. destruct (H5 Hc es s' Hes) as (-> & -> & _).
  split; vm_compute; reflexivity.
Defined.

(** [fill] on the zero value, with 127.0.0.1 and with ::ffff:127.0.0.1. *)
Lemma fill_spec_witness :
  wf_clientAddr clientAddr_zero ∧
  ca_port (fill clientAddr_zero test_ip 5000) = 5000 ∧
  ca_ip (fill clientAddr_zero test_ip 5000) = v4InV6Prefix ++ test_ip ∧
  ca_ip (fill clientAddr_zero (v4InV6Prefix ++ test_ip) 5000)
    = v4InV6Prefix ++ test_ip.
Proof.
  destruct (fill_spec clientAddr_zero test_ip 5000 eq_refl)
    as (Hp & H4 & _ & _ & _).
  destruct (fill_spec clientAddr_zero (v4InV6Prefix ++ test_ip) 5000 eq_refl)
    as (_ & _ & _ & H16 & _).
  split; [reflexivity|]. split; [exact Hp|].
  split; [exact (H4 eq_refl)|exact (H16 eq_refl)].
Defined.

(** 127.0.0.1 and ::ffff:127.0.0.1 have one key. *)
Lemma clientAddr_of_mapped_witness :
  length test_ip = IPv4len ∧
  clientAddr_of test_ip 5000 = clientAddr_of (v4InV6Prefix ++ test_ip) 5000.
Proof.
  split; [reflexivity|].
  exact (clientAddr_of_mapped test_ip (v4InV6Prefix ++ test_ip) 5000
           eq_refl eq_refl).
Defined.



(** The client of [test_listener] is bound, and unbound after
    [removeClient]. *)
Lemma registry_add_remove_witness :
  clients test_listener !! clientAddr_of test_ip 5000 = Some test_handler ∧
  clients (removeClient test_listener test_ip 5000)
    !! clientAddr_of test_ip 5000 = None.
Proof.
  pose proof (registry_add_remove
                {| pc := {| conn_fd := 0; conn_udp := true |};
                   listenIP := test_ip; writeTimeout := 0; clients := ∅ |}
                test_ip 5000 test_handler) as (H1 & _ & _ & _ & _ & _ & H7 & _).
  split; [exact H1|exact H7].
Defined.

(** With [lo] (not multicast-capable) and [eth0]: the join succeeds when
    [eth0] accepts it and fails when it does not. *)
Lemma join_at_least_one_witness :
  (∃ attempts : list (Interface * option error),
     attempts.*1 = [test_eth0] ∧
     ((joinMulticastGroupOnAtLeastOneInterface (env := test_env None true [])
         (test_conn 0) test_group os_empty).1 = None ↔
      ∃ a, a ∈ attempts ∧ joined a)) ∧
  (joinMulticastGroupOnAtLeastOneInterface (env := test_env None true [])
     (test_conn 0) test_group os_empty).1 = None ∧
  (joinMulticastGroupOnAtLeastOneInterface (env := test_env None false [])
     (test_conn 0) test_group os_empty).1 = Some errNoMulticastInterface.
Proof.
  destruct (join_at_least_one (env := test_env None true []) (test_conn 0)
              test_group os_empty [test_lo; test_eth0] eq_refl)
    as (attempts & Hf & _ & Hiff & _ & _).
  split; [|split; reflexivity].
  exists attempts. split; [exact Hf|exact Hiff].
Defined.

(** [SetReadBuffer] failing on the socket: no listener and no receive loop,
    on the multicast and on the unicast path. *)
Lemma read_buffer_required_witness :
  (test_failed (test_env None true [0%nat]) true "224.1.0.1:5000").1
    = Fail "no buffer space available" ∧
  (test_failed (test_env None true [0%nat]) false "127.0.0.1:8000").1
    = Fail "no buffer space available" ∧
  os_loops (test_failed (test_env None true [0%nat]) true
              "224.1.0.1:5000").2 = ∅ ∧
  os_loops (test_failed (test_env None true [0%nat]) false
              "127.0.0.1:8000").2 = ∅.
Proof.
  destruct (read_buffer_required (App := nat) (plat := test_platform)
              (env := test_env None true [0%nat]) test_listenPacket 0 true
              "224.1.0.1:5000" os_empty (test_bound true "224.1.0.1:5000").2
              (test_conn 0) test_group eq_refl)
    as (_ & Hm & _ & _).
  destruct (read_buffer_required (App := nat) (plat := test_platform)
              (env := test_env None true [0%nat]) test_listenPacket 0 false
              "127.0.0.1:8000" os_empty (test_bound false "127.0.0.1:8000").2
              (test_conn 0) test_ip eq_refl)
    as (_ & Hu & _ & _).
  destruct (Hm "no buffer space available" eq_refl) as (Hm1 & Hm2 & _).
  destruct (Hu "no buffer space available" eq_refl) as (Hu1 & Hu2 & _).
  unfold test_failed.
  split; [now rewrite Hm1|]. split; [now rewrite Hu1|].
  split; [rewrite Hm2|rewrite Hu2]; vm_compute; reflexivity.
Defined.

(** The handle 0 stays open when [SetMulticastTTL], the join or
    [SetReadBuffer] fails. *)
Lemma failure_after_open_leaks_witness :
  ((test_failed (test_env (Some "permission denied") true []) true
      "224.1.0.1:5000").1 = Fail "permission denied" ∧
   0%nat ∈ os_open (test_failed (test_env (Some "permission denied") true [])
                      true "224.1.0.1:5000").2) ∧
  ((test_failed (test_env None false []) true "224.1.0.1:5000").1
     = Fail errNoMulticastInterface ∧
   0%nat ∈ os_open (test_failed (test_env None false []) true
                      "224.1.0.1:5000").2) ∧
  ((test_failed (test_env None true [0%nat]) false "127.0.0.1:8000").1
     = Fail "no buffer space available" ∧
   0%nat ∈ os_open (test_failed (test_env None true [0%nat]) false
                      "127.0.0.1:8000").2).
Proof.
  assert (Hopen : 0%nat ∈ os_open
            (test_listenPacket "udp" "224.0.0.0:5000" os_empty).2).
  { apply elem_of_union_r, elem_of_singleton. reflexivity. }
  split; [|split].
  - destruct (failure_after_open_leaks (App := nat) (plat := test_platform)
                (env := test_env (Some "permission denied") true [])
                test_listenPacket 0 true "224.1.0.1:5000" "udp"
                "224.0.0.0:5000" (test_conn 0) os_empty
                (test_listenPacket "udp" "224.0.0.0:5000" os_empty).2
                eq_refl eq_refl Hopen) as (H1 & _ & _ & H4).
    pose proof (H1 eq_refl "permission denied" eq_refl) as Hf.
    split; [exact Hf|]. apply (H4 _ Hf).
  - destruct (failure_after_open_leaks (App := nat) (plat := test_platform)
                (env := test_env None false []) test_listenPacket 0 true
                "224.1.0.1:5000" "udp" "224.0.0.0:5000" (test_conn 0)
                os_empty
                (test_listenPacket "udp" "224.0.0.0:5000" os_empty).2
                eq_refl eq_refl Hopen) as (_ & H2 & _ & H4).
    pose proof (H2 eq_refl "224.1.0.1" "5000" errNoMulticastInterface
                  eq_refl eq_refl eq_refl) as Hf.
    split; [exact Hf|]. apply (H4 _ Hf).
  - destruct (failure_after_open_leaks (App := nat) (plat := test_platform)
                (env := test_env None true [0%nat]) test_listenPacket 0 false
                "127.0.0.1:8000" "udp" "127.0.0.1:8000" (test_conn 0)
                os_empty
                (test_listenPacket "udp" "127.0.0.1:8000" os_empty).2
                eq_refl eq_refl Hopen) as (_ & _ & H3 & H4).
    destruct (H3 (test_conn 0) test_ip
                (test_bound false "127.0.0.1:8000").2
                "no buffer space available" eq_refl eq_refl) as [_ Hf].
    split; [exact Hf|]. apply (H4 _ Hf).
Defined.

(** C8, where the code departs from it: on a host where no interface
    accepts the join, the first construction of the pair fails after its
    socket was opened, and the pair constructor returns the error with that
    socket open, closed by no call; with [SetReadBuffer] failing on the
    second socket, it returns the error with the first socket closed and the
    second still open, closed by no call. *)
Theorem pair_failure_leaves_socket_open :
  let rtp_fails := test_pair false [] in
  let rtcp_fails := test_pair true [1%nat] in
  rtp_fails.1 = Fail errNoMulticastInterface ∧
  os_open rtp_fails.2 = {[0%nat]} ∧
  os_log rtp_fails.2 =
    [CallListen "udp" "224.0.0.0:5000" (test_conn 0);
     CallSetMulticastTTL (test_conn 0) 16 None;
     CallInterfaces;
     CallJoinGroup (test_conn 0) test_eth0 test_group
       (Some "no such device")] ∧
  rtcp_fails.1 = Fail "no buffer space available" ∧
  os_open rtcp_fails.2 = {[1%nat]} ∧
  os_log rtcp_fails.2 =
    [CallListen "udp" "224.0.0.0:5000" (test_conn 0);
     CallSetMulticastTTL (test_conn 0) 16 None;
     CallInterfaces;
     CallJoinGroup (test_conn 0) test_eth0 test_group None;
     CallSetReadBuffer (test_conn 0) 524288 None;
     CallGoRun (test_conn 0);
     CallListen "udp" "224.0.0.0:5001" (test_conn 1);
     CallSetMulticastTTL (test_conn 1) 16 None;
     CallInterfaces;
     CallJoinGroup (test_conn 1) test_eth0 test_group None;
     CallSetReadBuffer (test_conn 1) 524288
       (Some "no buffer space available");
     CallClose (test_conn 0)].
Proof. vm_compute. repeat split. Qed.

(** * Witnesses for the rest of the file *)

(** SSRC 2222 is found (format 97), SSRC 0 is not (format 98 has seen
    none), in the order of the map and in the opposite order. *)
Lemma find_format_spec_witness :
  range_order test_formats (reverse (map_to_list test_formats)) ∧
  (serverFindFormatWithSSRC test_LastSSRC
     (reverse (map_to_list test_formats)) 0 = None ↔
   ∀ k f, test_formats !! k = Some f → test_LastSSRC f ≠ (0, true)) ∧
  serverFindFormatWithSSRC test_LastSSRC
    (reverse (map_to_list test_formats)) 0 = None ∧
  (tf_payloadType <$> serverFindFormatWithSSRC test_LastSSRC
     (reverse (map_to_list test_formats)) 2222) = Some 97.
Proof.
  assert (Ho : range_order test_formats (reverse (map_to_list test_formats)))
    by apply reverse_Permutation.
  destruct (find_format_spec test_LastSSRC test_formats
              (reverse (map_to_list test_formats)) 0 Ho) as [Hn _].
  split; [exact Ho|]. split; [exact Hn|].
  split; vm_compute; reflexivity.
Defined.

(** With one format only for SSRC 2222, either order finds the same. *)
Lemma find_format_order_independent_witness :
  serverFindFormatWithSSRC test_LastSSRC (map_to_list test_formats) 2222
  = serverFindFormatWithSSRC test_LastSSRC
      (reverse (map_to_list test_formats)) 2222.
Proof.
  apply (find_format_order_independent test_LastSSRC test_formats).
  - unfold range_order. reflexivity.
  - apply reverse_Permutation.
  - intros k1 k2 f1 f2 H1 H2 M1 M2. unfold test_formats in H1, H2.
    repeat match goal with
           | H : <[_:=_]> _ !! _ = Some _ |- _ =>
               apply lookup_insert_Some in H as [[_ <-]|[_ H]]
           | H : ∅ !! _ = Some _ |- _ => rewrite lookup_empty in H
           end;
      try reflexivity; discriminate.
Defined.

(** A [nil] address gives the all-zero key. *)
Lemma clientAddr_of_other_length_witness :
  clientAddr_of [] 5000 = ClientAddr (replicate 16 x00) 5000.
Proof.
  destruct (clientAddr_of_other_length [] 5000) as [H _]; [discriminate|].
  exact H.
Defined.

(** Clients on the ports 5000 and 5001 of 127.0.0.1. *)
Lemma registry_commute_witness :
  addClient (addClient test_listener test_ip 5001 test_handler)
    test_ip 5002 test_handler
  = addClient (addClient test_listener test_ip 5002 test_handler)
      test_ip 5001 test_handler.
Proof.
  destruct (registry_commute test_listener test_ip test_ip 5001 5002
              test_handler test_handler) as [H _]; [discriminate|].
  exact H.
Defined.

(** "ping" is handed over whole. *)
Lemma payload_bounds_witness :
  ∃ s', step (plat := test_platform) (EvRead (ReadDatagram (test_ping 5000)))
          test_sys = Some s' ∧
        calls s' = [(test_handler, [x70; x69; x6e; x67])].
Proof.
  destruct (payload_bounds (plat := test_platform) test_sys (test_ping 5000)
              test_handler eq_refl eq_refl)
    as (s' & payload & Hs & Hc & Hp & _ & Hw & _).
  { vm_compute. reflexivity. }
  exists s'. split; [exact Hs|].
  rewrite Hc, (Hw ltac:(vm_compute; lia)). reflexivity.
Defined.

(** Registered as 127.0.0.1, received from ::ffff:127.0.0.1. *)
Lemma dispatch_across_forms_witness :
  ∃ s', steps (plat := test_platform)
          [EvAddClient test_ip 5000 test_handler;
           EvRead (ReadDatagram test_ping_mapped)] test_sys = Some s' ∧
        app s' = 4%nat.
Proof.
  destruct (dispatch_across_forms (plat := test_platform) test_sys test_ip
              test_ip (v4InV6Prefix ++ test_ip) 5000 test_handler
              test_ping_mapped eq_refl eq_refl eq_refl (or_introl eq_refl)
              (or_intror eq_refl) eq_refl eq_refl)
    as (s' & Hs & _ & Ha).
  exists s'. split; [exact Hs|]. rewrite Ha. reflexivity.
Defined.

(** Removed as ::ffff:127.0.0.1, received from 127.0.0.1. *)
Lemma remove_stops_dispatch_witness :
  ∃ s', steps (plat := test_platform)
          [EvRemoveClient (v4InV6Prefix ++ test_ip) 5000;
           EvRead (ReadDatagram (test_ping 5000))] test_sys = Some s' ∧
        calls s' = [] ∧ app s' = 0%nat.
Proof.
  destruct (remove_stops_dispatch (plat := test_platform) test_sys test_ip
              (v4InV6Prefix ++ test_ip) test_ip 5000 (test_ping 5000)
              eq_refl eq_refl eq_refl (or_intror eq_refl)
              (or_introl eq_refl) eq_refl eq_refl)
    as (s' & Hs & Hc & Ha & _).
  exists s'. split; [exact Hs|]. split; [exact Hc|exact Ha].
Defined.

Lemma test_listener_wf : registry_wf test_listener.
Proof.
  apply addClient_wf. intros k cb H. simpl in H.
  rewrite lookup_empty in H. discriminate H.
Qed.

(** The key of the client in the registry at the end of the run
    [test_events]. *)
Lemma registry_keys_wf_witness :
  registry_wf test_listener ∧
  clients (lst test_final) !! clientAddr_of test_ip 5000 = Some test_handler ∧
  length (ca_ip (clientAddr_of test_ip 5000)) = 16%nat.
Proof.
  assert (Hk : clients (lst test_final) !! clientAddr_of test_ip 5000
               = Some test_handler) by (vm_compute; reflexivity).
  split; [exact test_listener_wf|]. split; [exact Hk|].
  apply (registry_keys_wf (plat := test_platform) test_listener 0%nat
           test_final test_listener_wf) with (cb := test_handler);
    [|exact Hk].
  exists test_events. vm_compute. reflexivity.
Defined.


(** The interfaces cannot be listed: the error of the listing is returned. *)
Lemma interfaces_error_propagates_witness :
  (newServerUDPListener (App := nat) (plat := test_platform)
     (env := test_env_nolist) test_listenPacket 0 true "224.1.0.1:5000"
     os_empty).1 = Fail "too many open files".
Proof.
  rewrite (interfaces_error_propagates (App := nat) (plat := test_platform)
             (env := test_env_nolist) test_listenPacket 0 "224.1.0.1:5000"
             "udp" "224.0.0.0:5000" (test_conn 0) os_empty
             (test_listenPacket "udp" "224.0.0.0:5000" os_empty).2
             "too many open files" eq_refl eq_refl eq_refl eq_refl).
  reflexivity.
Defined.

(** A unicast listener on 127.0.0.1:8000. *)
Lemma new_unicast_listener_witness :
  ∃ u w',
    newServerUDPListener (App := nat) (plat := test_platform)
      (env := test_env None true []) test_listenPacket 0 false
      "127.0.0.1:8000" os_empty = (Ret u, w') ∧
    ip u = test_ip ∧ clients u = ∅ ∧ os_loops w' = {[0%nat]}.
Proof.
  destruct (new_unicast_listener (App := nat) (plat := test_platform)
              (env := test_env None true []) test_listenPacket 0
              "127.0.0.1:8000" "udp" "127.0.0.1:8000" (test_conn 0) os_empty
              (test_listenPacket "udp" "127.0.0.1:8000" os_empty).2
              eq_refl eq_refl eq_refl eq_refl)
    as (u & w' & Hn & _ & Hi & Hc & _ & _ & Hl & _).
  exists u, w'. split; [exact Hn|]. split; [exact Hi|]. split; [exact Hc|].
  rewrite Hl. vm_compute. reflexivity.
Defined.

(** A multicast listener on 224.1.0.1:5000. *)
Lemma new_multicast_listener_witness :
  ∃ host port,
    test_SplitHostPort "224.1.0.1:5000" = Ok (host, port) ∧
    ip {| pc := test_conn 0; listenIP := test_group; writeTimeout := 0;
          clients := (∅ : gmap clientAddr (readFunc nat)) |}
    = ParseIP (Platform := test_platform) host.
Proof.
  destruct (new_multicast_listener (App := nat) (plat := test_platform)
              (env := test_env None true []) test_listenPacket 0
              "224.1.0.1:5000" "udp" "224.0.0.0:5000" (test_conn 0) os_empty
              (test_listenPacket "udp" "224.0.0.0:5000" os_empty).2
              (test_failed (test_env None true []) true "224.1.0.1:5000").2
              {| pc := test_conn 0; listenIP := test_group;
                 writeTimeout := 0; clients := ∅ |}
              eq_refl eq_refl eq_refl)
    as (host & port & _ & _ & Hs & _ & _ & Hi & _).
  exists host, port. split; [exact Hs|exact Hi].
Defined.

(** A socket that is not a UDP socket: the unicast constructor panics. *)
Lemma non_udp_conn_no_listener_witness :
  newServerUDPListener (App := nat) (plat := test_platform)
    (env := test_env None true []) test_listenPacket_other 0 false
    "127.0.0.1:8000" os_empty
  = (Panic, (test_listenPacket_other "udp" "127.0.0.1:8000" os_empty).2).
Proof.
  destruct (non_udp_conn_no_listener (App := nat) (plat := test_platform)
              (env := test_env None true []) test_listenPacket_other 0 false
              "127.0.0.1:8000" "udp" "127.0.0.1:8000"
              {| conn_fd := 0; conn_udp := false |} os_empty
              (test_listenPacket_other "udp" "127.0.0.1:8000" os_empty).2
              eq_refl eq_refl eq_refl)
    as (_ & _ & _ & H & _).
  exact (H eq_refl).
Defined.

